(** * bibliomania: ingestion pipeline, embedding cache, similarity query
      and graph expansion

    A shallow embedding of [smart_ingest.py], [ingest.py],
    [semantic_engine.py] and the [/graph/expand] handler of [main.py],
    followed by the properties of the specification that concern them.

    Conventions of the embedding.
    - Python values that come out of [json.loads] or out of a DuckDB row
      are values of [json]; [JNull] is Python's [None] and SQL's [NULL].
    - Python code that can raise is written in a state-and-exception
      monad [M]: the state reached before a [raise] is kept, as in
      Python, where mutations made before an exception stay visible.
    - A table without a key is a list of rows in table order; the
      [vector_cache] table, with its primary key and its
      [INSERT OR REPLACE] writes, is a [gmap]; a Python dict whose
      iteration order shows in the output ([nodes]) is an association
      list in insertion order.
    - External collaborators (the S3 bucket, [json.loads]/[json.dumps],
      the SPECTER2 encoder, DuckDB's cosine function) are Section
      variables. *)

From Stdlib Require Import ZArith.
From stdpp Require Import base option list strings gmap sorting pretty.

Local Open Scope string_scope.
Local Open Scope list_scope.
Set Warnings "-register-all".

(** ** Python values and exceptions *)

(** Numbers are integers here; nothing below looks inside a number. *)
Inductive json : Type :=
| JNull
| JBool (b : bool)
| JNum (n : Z)
| JStr (s : string)
| JArr (items : list json)
| JObj (fields : list (string * json)).

(** The exception classes that the modelled code raises or names. *)
Inductive exn : Type :=
| KeyError
| IndexError
| TypeError
| AttributeError
| JSONDecodeError
| ClientError        (* s3.download_file *)
| ReadError          (* gzip / utf-8 decoding while reading the shard *)
| ModelLoadError     (* from_pretrained, load_adapter, model.to *)
| EncoderError       (* tokenizer or forward pass *)
| SqlError           (* a statement DuckDB rejects *)
| HTTPException (status : Z).

Global Instance exn_eq_dec : EqDecision exn.
Proof. solve_decision. Defined.

Inductive res (A : Type) : Type :=
| Ok (a : A)
| Raise (e : exn).
Arguments Ok {A} a.
Arguments Raise {A} e.

(** State and exceptions; the state survives a [Raise]. *)
Definition M (S A : Type) : Type := S → res A * S.

Definition ret {S A} (a : A) : M S A := λ s, (Ok a, s).
Definition raise {S A} (e : exn) : M S A := λ s, (Raise e, s).
Definition bind {S A B} (m : M S A) (k : A → M S B) : M S B :=
  λ s, match m s with
       | (Ok a, s') => k a s'
       | (Raise e, s') => (Raise e, s')
       end.
Definition get_state {S} : M S S := λ s, (Ok s, s).
Definition modify {S} (f : S → S) : M S unit := λ s, (Ok tt, f s).
Definition lift_res {S A} (r : res A) : M S A := λ s, (r, s).

(** stdpp's notations [x ← m; k] and [m;; k] for [bind]. *)
Global Instance M_ret {S} : MRet (M S) := λ A, ret.
Global Instance M_bind {S} : MBind (M S) := λ A B k m, bind m k.

(** [try: body except Exception as e: handler e] *)
Definition try_except {S A} (body : M S A) (handler : exn → M S A) : M S A :=
  λ s, match body s with
       | (Ok a, s') => (Ok a, s')
       | (Raise e, s') => handler e s'
       end.

(** [try: body except (classes): handler]: other exceptions go through. *)
Definition try_except_only {S A} (classes : list exn)
    (body : M S A) (handler : M S A) : M S A :=
  λ s, match body s with
       | (Ok a, s') => (Ok a, s')
       | (Raise e, s') =>
           if bool_decide (e ∈ classes) then handler s' else (Raise e, s')
       end.

(** [try: body finally: final]: [final] runs on every exit path; an
    exception of [body] is re-raised after it unless [final] raises. *)
Definition try_finally {S A} (body : M S A) (final : M S unit) : M S A :=
  λ s, match body s with
       | (r, s') =>
           match final s' with
           | (Ok _, s'') => (r, s'')
           | (Raise e, s'') => (Raise e, s'')
           end
       end.

(** [for x in xs: body x] *)
Fixpoint for_each {S A} (xs : list A) (body : A → M S unit) : M S unit :=
  match xs with
  | [] => ret tt
  | x :: xs' => body x;; for_each xs' body
  end.

(** [[f(x) for x in xs]], stopping at the first exception. *)
Fixpoint map_res {A B} (f : A → res B) (xs : list A) : res (list B) :=
  match xs with
  | [] => Ok []
  | x :: xs' =>
      match f x with
      | Raise e => Raise e
      | Ok y => match map_res f xs' with
                | Raise e => Raise e
                | Ok ys => Ok (y :: ys)
                end
      end
  end.

Definition res_bind {A B} (r : res A) (k : A → res B) : res B :=
  match r with Ok a => k a | Raise e => Raise e end.

(** ** Python operations on parsed JSON *)

Fixpoint assoc_get {V} (k : string) (kvs : list (string * V)) : option V :=
  match kvs with
  | [] => None
  | (k', v) :: rest => if bool_decide (k' = k) then Some v else assoc_get k rest
  end.

(** [d.get(key, default)]; only a dict has [.get]. *)
Definition py_get (d : json) (key : string) (default : json) : res json :=
  match d with
  | JObj kvs => Ok (match assoc_get key kvs with Some v => v | None => default end)
  | _ => Raise AttributeError
  end.

(** [d[key]] with a string key. *)
Definition py_getitem (d : json) (key : string) : res json :=
  match d with
  | JObj kvs => match assoc_get key kvs with
                | Some v => Ok v
                | None => Raise KeyError
                end
  | _ => Raise TypeError
  end.

(** [d[0]]: first element of a list, first character of a string; a
    parsed JSON object has string keys only, so [d[0]] is a [KeyError]. *)
Definition py_getitem0 (d : json) : res json :=
  match d with
  | JArr (x :: _) => Ok x
  | JArr [] => Raise IndexError
  | JStr (String c _) => Ok (JStr (String c EmptyString))
  | JStr EmptyString => Raise IndexError
  | JObj _ => Raise KeyError
  | _ => Raise TypeError
  end.

Fixpoint chars (s : string) : list string :=
  match s with
  | EmptyString => []
  | String c s' => String c EmptyString :: chars s'
  end.

(** [for x in v]: a list yields its items, a dict its keys, a string its
    characters; anything else is not iterable. *)
Definition py_iter (v : json) : res (list json) :=
  match v with
  | JArr xs => Ok xs
  | JObj kvs => Ok (JStr <$> kvs.*1)
  | JStr s => Ok (JStr <$> chars s)
  | _ => Raise TypeError
  end.

Definition slash : Ascii.ascii := Ascii.Ascii true true true true false true false false.

(** [s.split(sep)] for a one-character separator. *)
Fixpoint split_on (sep : Ascii.ascii) (s : string) : list string :=
  match s with
  | EmptyString => [EmptyString]
  | String c s' =>
      if Ascii.eqb c sep then EmptyString :: split_on sep s'
      else match split_on sep s' with
           | [] => [String c EmptyString]
           | h :: t => String c h :: t
           end
  end.

(** [v.split('/')[-1]]; only a string has [.split]. *)
Definition py_last_segment (v : json) : res string :=
  match v with
  | JStr s => Ok (List.last (split_on slash s) EmptyString)
  | _ => Raise AttributeError
  end.

(** ** The persistent store (database.py / smart_ingest.py [init_db]) *)

(** A row of [works]. [id] is the primary key; the other columns hold
    the value that was bound to them. *)
Record work_row : Type := WorkRow {
  id : string;
  doi : json;
  title : json;
  publication_year : json;
  cited_by_count : json;
  first_author : json;
  venue : json;
  abstract_inverted_index : json
}.

(** The keys of a table of works, in table order. *)
Definition ids (t : list work_row) : list string := id <$> t.

(** A row of [citations (source_id, target_id)]; no key. *)
Definition citation : Type := string * string.

(** ** smart_ingest.py *)

Definition TARGET_CONCEPT_IDS : list string :=
  ["C15151743"; "C69562835"; "C190743605"; "C28225019"; "C152662350"].

Definition result_or_none (r : res json) : json :=
  match r with Ok v => v | Raise _ => JNull end.

(** [safe_get_author], as a computation that may raise, and its
    [except (KeyError, IndexError, TypeError): return None]. *)
Definition get_author_path (work : json) : res json :=
  res_bind (py_getitem work "authorships") (λ a,
  res_bind (py_getitem0 a) (λ a0,
  res_bind (py_getitem a0 "author") (λ au,
  py_getitem au "display_name"))).

Definition safe_get_author {S} (work : json) : M S json :=
  try_except_only [KeyError; IndexError; TypeError]
    (lift_res (get_author_path work)) (ret JNull).

Definition get_venue_path (work : json) : res json :=
  res_bind (py_getitem work "primary_location") (λ l,
  res_bind (py_getitem l "source") (λ src,
  py_getitem src "display_name")).

Definition safe_get_venue {S} (work : json) : M S json :=
  try_except_only [KeyError; TypeError]
    (lift_res (get_venue_path work)) (ret JNull).

(** A downloaded shard: the lines that can be read, and whether reading
    then reaches the end of the file or fails (truncated or corrupt
    gzip stream, undecodable bytes). *)
Inductive stream_end : Type := Eof | Corrupt.

Record shard_file : Type := ShardFile {
  lines : list string;
  ending : stream_end
}.

(** Outcome of [s3.download_file]: the object is written to the local
    file, or the call raises and the local file is left as it was. *)
Inductive fetch_result : Type :=
| FetchFails
| Fetched (f : shard_file).

(** What a worker sees and changes outside its own variables: the local
    files and what it printed. *)
Record world : Type := World {
  files : gmap string shard_file;
  printed : list (N * string * exn)
}.

(** The two accumulators [found_works] and [found_citations]. *)
Definition acc : Type := list work_row * list citation.

Definition append_work (r : work_row) (a : acc) : acc := (a.1 ++ [r], a.2).

Definition append_citation (c : citation) (a : acc) : acc := (a.1, a.2 ++ [c]).

(** The worker's state: the world and its accumulators. *)
Record wstate : Type := WState {
  w_world : world;
  w_acc : acc
}.

(** A computation on the accumulators alone, inside the worker. *)
Definition on_acc {A} (m : M acc A) : M wstate A :=
  λ s, match m (w_acc s) with
       | (r, a') => (r, WState (w_world s) a')
       end.

Definition set_files (f : gmap string shard_file → gmap string shard_file)
    (s : wstate) : wstate :=
  WState (World (f (files (w_world s))) (printed (w_world s))) (w_acc s).

Definition print_error (pid : N) (key : string) (e : exn) (s : wstate) : wstate :=
  WState (World (files (w_world s)) (printed (w_world s) ++ [(pid, key, e)]))
         (w_acc s).

Definition isdisjoint (xs ys : list string) : bool :=
  forallb (λ x, negb (bool_decide (x ∈ ys))) xs.

Definition local_filename (pid : N) : string :=
  "temp_chunk_" +:+ pretty pid +:+ ".gz".

Section worker.
(** [json.loads], [json.dumps] and the bucket. *)
Variable json_loads : string → option json.
Variable json_dumps : json → string.
Variable bucket : string → fetch_result.

(** The body of the inner [try] of [process_single_file], for one line. *)
Definition process_record (line : string) : M acc unit :=
  work ← lift_res (match json_loads line with
                       | Some w => Ok w
                       | None => Raise JSONDecodeError
                       end);
  concepts ← lift_res (py_get work "concepts" (JArr []));
  cs ← lift_res (py_iter concepts);
  work_concepts ← lift_res
       (map_res (λ c, res_bind (py_getitem c "id") py_last_segment) cs);
  if negb (isdisjoint work_concepts TARGET_CONCEPT_IDS) then
    wid ← lift_res (py_getitem work "id");
    work_id ← lift_res (py_last_segment wid);
    w_doi ← lift_res (py_get work "doi" JNull);
    w_title ← lift_res (py_get work "title" JNull);
    w_year ← lift_res (py_get work "publication_year" JNull);
    w_cited ← lift_res (py_get work "cited_by_count" JNull);
    w_author ← safe_get_author work;
    w_venue ← safe_get_venue work;
    w_abs ← lift_res (py_get work "abstract_inverted_index" JNull);
    modify (append_work
      (WorkRow work_id w_doi w_title w_year w_cited w_author w_venue
               (JStr (json_dumps w_abs))));;
    refs ← lift_res (py_get work "referenced_works" (JArr []));
    rs ← lift_res (py_iter refs);
    for_each rs (λ ref,
      target ← lift_res (py_last_segment ref);
      modify (append_citation (work_id, target)))
  else ret tt.

(** [try: ... except Exception: continue] around one line. *)
Definition process_line (line : string) : M acc unit :=
  try_except (process_record line) (λ _, ret tt).

(** [with gzip.open(local_filename) as f: for line in f: ...]. A
    missing file makes [gzip.open] raise; a corrupt stream raises
    after the lines that could be read. *)
Definition read_shard (name : string) : M wstate unit :=
  s ← get_state;
  match files (w_world s) !! name with
  | None => raise ReadError
  | Some f =>
      on_acc (for_each (lines f) process_line);;
      match ending f with
      | Eof => ret tt
      | Corrupt => raise ReadError
      end
  end.

(** [s3.download_file("openalex", s3_key, local_filename)] *)
Definition download_file (s3_key name : string) : M wstate unit :=
  match bucket s3_key with
  | FetchFails => raise ClientError
  | Fetched f => modify (set_files (λ fs, <[name := f]> fs))
  end.

(** [if os.path.exists(local_filename): os.remove(local_filename)] *)
Definition cleanup (name : string) : M wstate unit :=
  s ← get_state;
  if bool_decide (is_Some (files (w_world s) !! name))
  then modify (set_files (λ fs, delete name fs))
  else ret tt.

Definition worker_body (pid : N) (s3_key : string)
    : M wstate (list work_row * list citation) :=
  try_finally
    (try_except
       (download_file s3_key (local_filename pid);;
        read_shard (local_filename pid))
       (λ e, modify (print_error pid s3_key e)))
    (cleanup (local_filename pid));;
  s ← get_state;
  ret (w_acc s).

(** [process_single_file(s3_key)], run by the process [pid]: starts
    with empty accumulators and gives back the pair and the world.
    The statements before the [try] (reading the pid, creating the S3
    client) and [os.remove] are taken not to fail. *)
Definition process_single_file (pid : N) (s3_key : string) (w : world)
    : res (list work_row * list citation) * world :=
  match worker_body pid s3_key (WState w ([], [])) with
  | (r, s) => (r, w_world s)
  end.

End worker.

(** *** The dispatch pool and the store writer ([main]) *)

Definition batch : Type := list work_row * list citation.

(** [pool.imap_unordered(process_single_file, all_keys)]: every key is
    handed to one worker process; results arrive in completion order.
    A run of the pool is described by its tasks in completion order,
    each with the process that ran it. Workers share nothing but the
    local directory, where each process uses the file named after its
    own pid. *)
Fixpoint imap_unordered (json_loads : string → option json)
    (json_dumps : json → string) (bucket : string → fetch_result)
    (tasks : list (N * string)) (w : world) : list (res batch) * world :=
  match tasks with
  | [] => ([], w)
  | (pid, key) :: rest =>
      match process_single_file json_loads json_dumps bucket pid key w with
      | (r, w') =>
          match imap_unordered json_loads json_dumps bucket rest w' with
          | (rs, w'') => (r :: rs, w'')
          end
      end
  end.

(** A completion order of the submitted keys. *)
Definition completion_order (all_keys : list string) (tasks : list (N * string)) : Prop :=
  tasks.*2 ≡ₚ all_keys.

(** What a statement does when the new row's key is already present. *)
Inductive on_conflict : Type :=
| Abort      (* INSERT *)
| OrIgnore.  (* INSERT OR IGNORE *)

(** One [INSERT ... INTO works VALUES (...)] against the primary key. *)
Definition insert_work (pol : on_conflict) (t : list work_row) (r : work_row)
    : res (list work_row) :=
  if bool_decide (id r ∈ ids t) then
    match pol with
    | Abort => Raise SqlError
    | OrIgnore => Ok t
    end
  else Ok (t ++ [r]).

(** [con.executemany(stmt, rows)]: the statement once per row. *)
Fixpoint executemany_works (pol : on_conflict) (t : list work_row)
    (rows : list work_row) : res (list work_row) :=
  match rows with
  | [] => Ok t
  | r :: rows' => res_bind (insert_work pol t r) (λ t', executemany_works pol t' rows')
  end.






(** ** ingest.py *)

(** [INSERT INTO works SELECT ...] is one statement: it inserts every
    selected row, or, on a key conflict, none. *)
Definition insert_select_works (t : list work_row) (selected : list work_row)
    : res (list work_row) :=
  executemany_works Abort t selected.

(** [ingest_works]: [selected] are the rows of the snapshot that the
    query keeps (title not null, type among the three). The exception
    is logged, not propagated. *)
Definition ingest_works (selected : list work_row) : M (list work_row * list string) unit :=
  try_except
    (st ← get_state;
     t' ← lift_res (insert_select_works st.1 selected);
     modify (λ st, (t', st.2 ++ ["Works ingestion completed."])))
    (λ e, modify (λ st, (st.1, st.2 ++ ["Error during Works ingestion"]))).

(** ** semantic_engine.py *)

(** The external collaborators of the serving layer: the pretrained
    encoder (loading it, and tokenizer plus forward pass giving the CLS
    vector of every input text), the conversions between a numpy vector
    [Vec] and a stored [FLOAT[]] value [Stored], DuckDB's
    [array_cosine_similarity] with the order of [ORDER BY] on its
    results, and Python's [str]. *)
Record collaborators (Vec Stored Score : Type) : Type := Collaborators {
  device : string;
  load_pretrained : res unit;
  forward : list string → res (list Vec);
  tolist : Vec → Stored;
  np_array : Stored → Vec;
  array_cosine_similarity : Stored → Stored → Score;
  score_le : Score → Score → bool;
  py_str : json → string
}.
Arguments device {Vec Stored Score} _.
Arguments load_pretrained {Vec Stored Score} _.
Arguments forward {Vec Stored Score} _ _.
Arguments tolist {Vec Stored Score} _ _.
Arguments np_array {Vec Stored Score} _ _.
Arguments array_cosine_similarity {Vec Stored Score} _ _ _.
Arguments score_le {Vec Stored Score} _ _ _.
Arguments py_str {Vec Stored Score} _ _.

(** What the engine does that an observer can see: calls into the
    encoder, and log records. The text of an exception, which some
    messages end with, is left out. *)
Inductive event : Type :=
| LoadPretrained
| ForwardPass (texts : list string)
| LogInfo (msg : string)
| LogWarning (msg : string)
| LogError (msg : string).

(** The serving process: the three tables, the engine's [is_loaded]
    flag and the trace of events. *)
Record sys (Stored : Type) : Type := Sys {
  db_works : list work_row;
  db_citations : list citation;
  vector_cache : gmap string Stored;
  is_loaded : bool;
  trace : list event
}.
Arguments Sys {Stored} _ _ _ _ _.
Arguments db_works {Stored} _.
Arguments db_citations {Stored} _.
Arguments vector_cache {Stored} _.
Arguments is_loaded {Stored} _.
Arguments trace {Stored} _.

(** A paper, or a node of the graph: a Python dict. *)
Definition paper : Type := list (string * json).

Record edge : Type := Edge {
  source : string;
  target : string;
  edge_type : option string
}.

Global Instance edge_eq_dec : EqDecision edge.
Proof. solve_decision. Defined.

Definition apostrophe : Ascii.ascii :=
  Ascii.Ascii true true true false false true false false.

Fixpoint has_char (c : Ascii.ascii) (s : string) : bool :=
  match s with
  | EmptyString => false
  | String c' s' => Ascii.eqb c' c || has_char c s'
  end.

(** An identifier that can stand between quotes in a statement. *)
Definition sql_plain (pid : string) : bool := negb (has_char apostrophe pid).

(** [a + b] on strings. *)
Definition py_add (a b : json) : res json :=
  match a, b with
  | JStr x, JStr y => Ok (JStr (x +:+ y))
  | _, _ => Raise TypeError
  end.

(** [p['id']]; the engine's papers carry string identifiers. *)
Definition paper_id (p : paper) : res string :=
  res_bind (py_getitem (JObj p) "id") (λ v,
    match v with JStr s => Ok s | _ => Raise TypeError end).

(** [p.get('title', '') + ' ' + p.get('abstract', '')] *)
Definition paper_text (p : paper) : res string :=
  res_bind (py_get (JObj p) "title" (JStr "")) (λ t,
  res_bind (py_add t (JStr " ")) (λ t1,
  res_bind (py_get (JObj p) "abstract" (JStr "")) (λ a,
  res_bind (py_add t1 a) (λ v,
    match v with JStr s => Ok s | _ => Raise TypeError end)))).

Section engine.
Context {Vec Stored Score : Type} (X : collaborators Vec Stored Score).

Definition emit (e : event) : M (sys Stored) unit :=
  modify (λ s, Sys (db_works s) (db_citations s) (vector_cache s)
                   (is_loaded s) (trace s ++ [e])).

Definition set_loaded : M (sys Stored) unit :=
  modify (λ s, Sys (db_works s) (db_citations s) (vector_cache s)
                   true (trace s)).

(** [INSERT OR REPLACE INTO vector_cache VALUES (?, ?)] *)
Definition cache_put (pid : string) (v : Stored) : M (sys Stored) unit :=
  modify (λ s, Sys (db_works s) (db_citations s) (<[pid := v]> (vector_cache s))
                   (is_loaded s) (trace s)).

Definition load_model : M (sys Stored) unit :=
  s ← get_state;
  if is_loaded s then ret tt
  else
    emit (LogInfo ("Loading SPECTER2 model on " +:+ device X +:+ "..."));;
    try_except
      (emit LoadPretrained;;
       lift_res (load_pretrained X);;
       set_loaded;;
       emit (LogInfo "SPECTER2 model loaded successfully."))
      (λ e, emit (LogError "Failed to load SPECTER2 model");; raise e).

(** [SELECT paper_id, embedding FROM vector_cache WHERE paper_id IN
    (...)], the list being written into the statement between
    quotes. The model gives the statement its meaning for identifiers
    without an apostrophe; with one, the text of the statement is no
    longer the intended one, and the model stops with [SqlError]. *)
Definition select_cached (paper_ids : list string)
    : M (sys Stored) (gmap string Stored) :=
  s ← get_state;
  if forallb sql_plain paper_ids
  then ret (filter (λ kv, kv.1 ∈ paper_ids) (vector_cache s))
  else raise SqlError.

(** The loop [for i, paper in enumerate(missing_papers)]. *)
Fixpoint store_new (new_embeddings : list Vec) (i : nat)
    (missing : list (string * paper)) (embeddings : gmap string Vec)
    : M (sys Stored) (gmap string Vec) :=
  match missing with
  | [] => ret embeddings
  | (pid, _) :: rest =>
      match new_embeddings !! i with
      | None => raise IndexError
      | Some emb =>
          cache_put pid (tolist X emb);;
          store_new new_embeddings (S i) rest (<[pid := emb]> embeddings)
      end
  end.

Definition get_embeddings (papers : list paper)
    : M (sys Stored) (gmap string Vec) :=
  load_model;;
  paper_ids ← lift_res (map_res paper_id papers);
  if bool_decide (paper_ids = []) then ret ∅
  else
    cached_res ← select_cached paper_ids;
    let embeddings : gmap string Vec := np_array X <$> cached_res in
    let missing_papers :=
      filter (λ kp, embeddings !! kp.1 = None) (zip paper_ids papers) in
    if bool_decide (missing_papers ≠ []) then
      emit (LogInfo ("Generating embeddings for " +:+
                     pretty (length missing_papers) +:+ " papers..."));;
      texts ← lift_res (map_res paper_text missing_papers.*2);
      emit (ForwardPass texts);;
      new_embeddings ← lift_res (forward X texts);
      store_new new_embeddings 0 missing_papers embeddings
    else ret embeddings.

(** [ORDER BY score DESC]: a row comes before another when its score
    is not below the other's. *)
Definition score_desc (a b : string * Score) : Prop :=
  Is_true (score_le X b.2 a.2).

Global Instance score_desc_dec a b : Decision (score_desc a b).
Proof. unfold score_desc. apply _. Defined.

(** The rows of the ranking query, before [ORDER BY] and [LIMIT]. *)
Definition scored_rows (seed_id : string) (seed_vector : Stored)
    (cache : gmap string Stored) : list (string * Score) :=
  (λ kv, (kv.1, array_cosine_similarity X kv.2 seed_vector)) <$>
    filter (λ kv, kv.1 ≠ seed_id) (map_to_list cache).

(** [limit] is a count of rows: the handler passes 5, the default is 20. *)
Definition calculate_similarity (seed_id : string) (limit : nat)
    : M (sys Stored) (list (string * Score)) :=
  s ← get_state;
  match vector_cache s !! seed_id with
  | None =>
      emit (LogWarning ("No embedding found for seed " +:+ seed_id +:+
                        ". Cannot calculate similarity."));;
      ret []
  | Some seed_vector =>
      ret (take limit
             (merge_sort score_desc
                (scored_rows seed_id seed_vector (vector_cache s))))
  end.

(** ** main.py: [/graph/expand] *)

Definition row_node (r : work_row) : paper :=
  [("id", JStr (id r)); ("title", title r); ("year", publication_year r);
   ("first_author", first_author r); ("venue", venue r);
   ("cited_by_count", cited_by_count r)].

Definition central_node (r : work_row) : paper :=
  row_node r ++ [("abstract", JStr (py_str X (abstract_inverted_index r)))].

(** [SELECT ... FROM works WHERE id = ?] with [fetchone]. *)
Definition select_work (t : list work_row) (pid : string) : option work_row :=
  List.find (λ r, bool_decide (id r = pid)) t.

(** [FROM citations c JOIN works w ON c.target_id = w.id
     WHERE c.source_id = ? LIMIT 20] *)
Definition refs_query (s : sys Stored) (pid : string) : list work_row :=
  take 20 (c ← db_citations s;
           if bool_decide (c.1 = pid)
           then filter (λ w, id w = c.2) (db_works s) else []).

(** [FROM citations c JOIN works w ON c.source_id = w.id
     WHERE c.target_id = ? LIMIT 20] *)
Definition cited_query (s : sys Stored) (pid : string) : list work_row :=
  take 20 (c ← db_citations s;
           if bool_decide (c.2 = pid)
           then filter (λ w, id w = c.1) (db_works s) else []).

(** [if pid not in nodes: nodes[pid] = node] *)
Definition add_node (nodes : list (string * paper)) (pid : string) (n : paper)
    : list (string * paper) :=
  match assoc_get pid nodes with
  | None => nodes ++ [(pid, n)]
  | Some _ => nodes
  end.

Definition graph : Type := list (string * paper) * list edge.

(** The loop over the outgoing references. *)
Definition add_refs (paper_id : string) (refs : list work_row) (g : graph) : graph :=
  foldl (λ g r, (add_node g.1 (id r) (row_node r),
                 g.2 ++ [Edge paper_id (id r) None])) g refs.

(** The loop over the incoming citations. *)
Definition add_cited (paper_id : string) (cited : list work_row) (g : graph) : graph :=
  foldl (λ g r, (add_node g.1 (id r) (row_node r),
                 g.2 ++ [Edge (id r) paper_id None])) g cited.

(** The loop over the similar papers. *)
Definition add_similar (t : list work_row) (paper_id : string)
    (similar_papers : list (string * Score)) (g : graph) : graph :=
  foldl (λ g sim,
           match assoc_get sim.1 g.1 with
           | Some _ => g
           | None =>
               match select_work t sim.1 with
               | Some r => (g.1 ++ [(sim.1, row_node r)],
                            g.2 ++ [Edge paper_id sim.1 (Some "similarity")])
               | None => g
               end
           end) g similar_papers.

(** Steps 1 to 3 of the handler: the focal paper and its citation
    neighbourhood. *)
Definition citation_graph (s : sys Stored) (paper_id : string) (central : work_row)
    : graph :=
  add_cited paper_id (cited_query s paper_id)
    (add_refs paper_id (refs_query s paper_id)
       ([(paper_id, central_node central)], [])).

(** The handler, up to the construction of the response: it returns
    the values of [nodes] and [edges]. The validation of the response
    schema is not part of the model. *)
Definition expand_graph (paper_id : string)
    : M (sys Stored) (list paper * list edge) :=
  s ← get_state;
  match select_work (db_works s) paper_id with
  | None => raise (HTTPException 404)
  | Some central_res =>
      let g := citation_graph s paper_id central_res in
      g' ← try_except
             (get_embeddings [central_node central_res];;
              similar_papers ← calculate_similarity paper_id 5;
              ret (add_similar (db_works s) paper_id similar_papers g))
             (λ e, emit (LogWarning "Semantic search failed");; ret g);
      ret (g'.1.*2, g'.2)
  end.

End engine.

(** ** Notions used in the statements *)

(** The accumulators after the lines [ls] have gone through the loop of
    [process_single_file], starting from empty accumulators. *)
Definition read_lines (json_loads : string → option json)
    (json_dumps : json → string) (ls : list string) : batch :=
  (for_each ls (process_line json_loads json_dumps) ([], [])).2.

(** The batches that a shard gives: nothing when it cannot be fetched,
    and otherwise what its readable lines give. *)
Definition shard_batches (json_loads : string → option json)
    (json_dumps : json → string) (r : fetch_result) : batch :=
  match r with
  | FetchFails => ([], [])
  | Fetched f => read_lines json_loads json_dumps (lines f)
  end.

(** The outer [try] block of the worker raises: the download or the
    reading of the shard fails. *)
Definition shard_raises (json_loads : string → option json)
    (json_dumps : json → string) (bucket : string → fetch_result)
    (pid : N) (s3_key : string) (w : world) : Prop :=
  ∃ e s', (download_file bucket s3_key (local_filename pid);;
           read_shard json_loads json_dumps (local_filename pid))
            (WState w ([], [])) = (Raise e, s').




(** ** A small snapshot, for the examples *)

Definition sample_record : json :=
  JObj [("id", JStr "https://openalex.org/W1");
        ("title", JStr "Citation graphs");
        ("concepts", JArr [JObj [("id", JStr "https://openalex.org/C15151743")]]);
        ("referenced_works", JArr [JStr "https://openalex.org/W2"])].

Definition sample_line : string := "{W1}".

Definition sample_loads (line : string) : option json :=
  if bool_decide (line = sample_line) then Some sample_record else None.

Definition sample_dumps (v : json) : string :=
  match v with JNull => "null" | _ => "{}" end.

(** Three shards: a whole one with a malformed line, one whose gzip
    stream breaks after its first line, one that cannot be fetched. *)
Definition sample_bucket (key : string) : fetch_result :=
  if bool_decide (key = "data/works/part_000.gz")
  then Fetched (ShardFile [sample_line; "not json"] Eof)
  else if bool_decide (key = "data/works/part_001.gz")
  then Fetched (ShardFile [sample_line] Corrupt)
  else FetchFails.

Definition sample_row : work_row :=
  WorkRow "W1" JNull (JStr "Citation graphs") JNull JNull JNull JNull (JStr "null").

(** The same document as [sample_row], with other non-key values. *)
Definition sample_row_again : work_row :=
  WorkRow "W1" (JStr "10.1/x") (JStr "Another title") (JNum 2020) (JNum 3)
          JNull JNull (JStr "null").

(** The papers of a call whose vector is not in the cache yet, with
    their identifiers, as [get_embeddings] computes them. *)
Definition missing_papers {Stored : Type} (s : sys Stored)
    (paper_ids : list string) (papers : list paper) : list (string * paper) :=
  filter (λ kp, vector_cache s !! kp.1 = None) (zip paper_ids papers).

(** The encoder fails during [get_embeddings papers]: the model is not
    loaded and cannot be, or it is there and the forward pass on the
    texts of the missing papers fails. *)
Definition encoder_fails {Vec Stored Score : Type}
    (X : collaborators Vec Stored Score) (papers : list paper)
    (s : sys Stored) (e : exn) : Prop :=
  (is_loaded s = false ∧ load_pretrained X = Raise e)
  ∨ ((is_loaded s = true ∨ load_pretrained X = Ok tt)
     ∧ ∃ paper_ids texts,
         map_res paper_id papers = Ok paper_ids
         ∧ forallb sql_plain paper_ids = true
         ∧ map_res paper_text (missing_papers s paper_ids papers).*2 = Ok texts
         ∧ texts ≠ []
         ∧ forward X texts = Raise e).

(** ** A small serving process, for the examples *)

(** Vectors and scores are integers here; the encoder gives every text
    the vector 1, or fails. *)
Definition sample_engine (load : res unit) (forward_ok : bool)
    : collaborators Z Z Z :=
  Collaborators Z Z Z "cpu" load
    (λ texts, if forward_ok then Ok ((λ _, 1%Z) <$> texts) else Raise EncoderError)
    (λ v, v) (λ v, v) (λ a b, (a * b)%Z) Z.leb (λ _, "None").

Definition paper_A : paper := [("id", JStr "A"); ("title", JStr "On A")].
Definition paper_B : paper := [("id", JStr "B"); ("title", JStr "On B")].

(** The model is loaded and the vector of A is cached. *)
Definition sample_cache_A : sys Z := Sys [] [] {["A" := 5%Z]} true [].

(** D1 cites D2, and both have a cached vector. *)
Definition row_D (i t : string) : work_row :=
  WorkRow i JNull (JStr t) JNull JNull JNull JNull JNull.

Definition sample_graph : sys Z :=
  Sys [row_D "D1" "First"; row_D "D2" "Second"] [("D1", "D2")]
      {["D1" := 1%Z; "D2" := 1%Z]} true [].



(** A store in which the cache holds a vector for Z9, a paper that has
    no row in [works]. *)
Definition sample_orphan : sys Z :=
  Sys [row_D "D1" "First"] [] {["D1" := 1%Z; "Z9" := 1%Z]} true [].

(** ** Notions used in the further properties *)

(** [sep.join(pieces)] *)
Fixpoint join_with (sep : Ascii.ascii) (pieces : list string) : string :=
  match pieces with
  | [] => EmptyString
  | [x] => x
  | x :: rest => x +:+ String sep (join_with sep rest)
  end.

(** [s.split('/')[-1]] on a string. *)
Definition last_segment (s : string) : string :=
  List.last (split_on slash s) EmptyString.

(** The concept identifiers of a record, as the filter computes them. *)
Definition concept_ids (work : json) : res (list string) :=
  res_bind (py_get work "concepts" (JArr [])) (λ concepts,
  res_bind (py_iter concepts) (λ cs,
  map_res (λ c, res_bind (py_getitem c "id") py_last_segment) cs)).

(** [work.get(key)] on a record that is a dict. *)
Definition field (work : json) (key : string) : json :=
  result_or_none (py_get work key JNull).

(** The tuple that [process_single_file] appends for a record. *)
Definition extract_row (json_dumps : json → string) (work : json) : res work_row :=
  res_bind (py_getitem work "id") (λ wid,
  res_bind (py_last_segment wid) (λ work_id,
  Ok (WorkRow work_id (field work "doi") (field work "title")
        (field work "publication_year") (field work "cited_by_count")
        (result_or_none (get_author_path work))
        (result_or_none (get_venue_path work))
        (JStr (json_dumps (field work "abstract_inverted_index")))))).

(** The row that a line of a shard adds to [found_works], if any: the
    line parses, the record carries a target concept, and its
    identifier can be read. *)
Definition line_row (json_loads : string → option json)
    (json_dumps : json → string) (line : string) : option work_row :=
  match json_loads line with
  | None => None
  | Some work =>
      match concept_ids work with
      | Raise _ => None
      | Ok cs =>
          if isdisjoint cs TARGET_CONCEPT_IDS then None
          else match extract_row json_dumps work with
               | Ok r => Some r
               | Raise _ => None
               end
      end
  end.

(** The targets of the references that come before the first one that
    is not a string. *)
Fixpoint ref_targets (rs : list json) : list string :=
  match rs with
  | [] => []
  | r :: rs' =>
      match py_last_segment r with
      | Ok t => t :: ref_targets rs'
      | Raise _ => []
      end
  end.

(** The citations that a kept line adds to [found_citations]. *)
Definition line_citations (json_loads : string → option json)
    (line : string) (work_id : string) : list citation :=
  match json_loads line with
  | None => []
  | Some work =>
      match res_bind (py_get work "referenced_works" (JArr [])) py_iter with
      | Ok rs => (λ t, (work_id, t)) <$> ref_targets rs
      | Raise _ => []
      end
  end.

(** The accumulators after one line. *)
Definition after_line (json_loads : string → option json)
    (json_dumps : json → string) (line : string) (a : acc) : acc :=
  match line_row json_loads json_dumps line with
  | Some r => (a.1 ++ [r], a.2 ++ line_citations json_loads line (id r))
  | None => a
  end.

(** A state of the serving process with more events in its trace. *)
Definition logged {Stored : Type} (s : sys Stored) (evs : list event) : sys Stored :=
  Sys (db_works s) (db_citations s) (vector_cache s) (is_loaded s) (trace s ++ evs).

(** ** get_concept_ids.py *)

(** [if v:] *)
Definition py_truthy (v : json) : bool :=
  match v with
  | JNull => false
  | JBool b => b
  | JNum n => negb (Z.eqb n 0)
  | JStr s => negb (bool_decide (s = EmptyString))
  | JArr xs => negb (bool_decide (xs = []))
  | JObj kvs => negb (bool_decide (kvs = []))
  end.

(** [s.replace(old, new)] for a non-empty [old]: the occurrences of
    [old] are found from the left, without overlap. [skip] counts the
    characters of an occurrence still to be passed over. *)
Fixpoint replace_go (old new : string) (skip : nat) (s : string) : string :=
  match s with
  | EmptyString => EmptyString
  | String c s' =>
      match skip with
      | S k => replace_go old new k s'
      | O =>
          if String.prefix old s
          then new +:+ replace_go old new (String.length old - 1) s'
          else String c (replace_go old new 0 s')
      end
  end.

Definition py_replace (old new s : string) : string := replace_go old new 0 s.

(** [v.replace(old, new)]; only a string has [.replace]. *)
Definition py_str_replace (v : json) (old new : string) : res string :=
  match v with
  | JStr s => Ok (py_replace old new s)
  | _ => Raise AttributeError
  end.

Definition openalex_prefix : string := "https://openalex.org/".

Section concept_ids_script.
(** [requests.get(url).json()], and the text that an f-string gives a
    value. *)
Variable http_get_json : string → res json.
Variable py_format : json → string.

(** [get_concept_id(term)]; the state is what was printed. The text of
    the exception, which ends the line of the error, is left out. *)
Definition get_concept_id (term : string) : M (list string) (option string) :=
  let url := "https://api.openalex.org/concepts?search=" +:+ term in
  try_except
    (r ← lift_res (http_get_json url);
     results ← lift_res (py_get r "results" (JArr []));
     if py_truthy results then
       best_match ← lift_res (py_getitem0 results);
       name ← lift_res (py_getitem best_match "display_name");
       cid ← lift_res (py_getitem best_match "id");
       modify (λ out, out ++ ["Found: " +:+ py_format name +:+ " -> " +:+
                              py_format cid]);;
       cid' ← lift_res (py_getitem best_match "id");
       short ← lift_res (py_str_replace cid' openalex_prefix EmptyString);
       ret (Some short)
     else
       modify (λ out, out ++ ["No concept found for '" +:+ term +:+ "'"]);;
       ret None)
    (λ e, modify (λ out, out ++ ["Error searching for " +:+ term]);;
          ret None).

(** The loop of the script over the search terms: [found_ids]. *)
Fixpoint collect_concept_ids (terms : list string) (found_ids : list string)
    : M (list string) (list string) :=
  match terms with
  | [] => ret found_ids
  | term :: rest =>
      cid ← get_concept_id term;
      match cid with
      | Some c =>
          if negb (bool_decide (c = EmptyString))
          then collect_concept_ids rest (found_ids ++ [c])
          else collect_concept_ids rest found_ids
      | None => collect_concept_ids rest found_ids
      end
  end.

End concept_ids_script.

(** ** main.py: [/search] *)

(** The collaborators of the search handler: [str.strip], DuckDB's
    [ILIKE] on a column value, the rows that the full-text index
    matches, best first (or its failure), and the construction of a
    [Paper] from a row with its validation. *)
Record search_collaborators : Type := SearchCollaborators {
  py_strip : string → string;
  ilike : json → string → bool;
  match_bm25 : list work_row → string → res (list work_row);
  Paper : work_row → res paper
}.

(** [sub in s] *)
Fixpoint contains (sub s : string) : bool :=
  String.prefix sub s ||
  match s with
  | EmptyString => false
  | String _ s' => contains sub s'
  end.

Section search.
Variable C : search_collaborators.
Variable works_table : list work_row.

(** The handler's state: the list [papers] and the log. *)
Definition search_state : Type := list paper * list event.

(** [for r in results: papers.append(Paper(...))] *)
Definition append_papers (results : list work_row) : M search_state unit :=
  for_each results (λ r,
    p ← lift_res (Paper C r);
    modify (λ st : search_state, (st.1 ++ [p], st.2))).

(** [WHERE doi ILIKE ? LIMIT 1] with [fetchone]. *)
Definition doi_query (pattern : string) : option work_row :=
  List.find (λ r, ilike C (doi r) pattern) works_table.

(** [WHERE title ILIKE ? LIMIT 20] *)
Definition fallback_query (pattern : string) : list work_row :=
  take 20 (filter (λ r, ilike C (title r) pattern = true) works_table).

(** The body of the outer [try]. *)
Definition search_attempt (q : string) : M search_state (list paper) :=
  hit ← (if contains "10." q && contains "/" q then
           match doi_query (py_strip C q) with
           | Some r => append_papers [r];; ret true
           | None => ret false
           end
         else ret false);
  if (hit : bool) then st ← get_state; ret st.1
  else
    results ← lift_res (match_bm25 C works_table q);
    append_papers (take 20 results);;
    st ← get_state; ret st.1.

(** The body of the inner [try], in the handler of the outer one. *)
Definition search_fallback (q : string) : M search_state (list paper) :=
  append_papers (fallback_query ("%" +:+ q +:+ "%"));;
  st ← get_state; ret st.1.

(** [search_papers(q)], from an empty list [papers]. *)
Definition search_papers (q : string) (log : list event)
    : res (list paper) * search_state :=
  try_except (search_attempt q)
    (λ e, modify (λ st : search_state, (st.1, st.2 ++ [LogError "Search failed"]));;
          try_except (search_fallback q)
            (λ e2, raise (HTTPException 500)))
    ([], log).

End search.



(** A setting in which the full-text index returns the whole table,
    the row D2 gives no [Paper], and [ILIKE] accepts the title of D1
    only. *)
Definition sample_search_partial : search_collaborators :=
  SearchCollaborators (λ q, q)
    (λ v _, match v with JStr x => String.eqb x "First" | _ => false end)
    (λ t _, Ok t)
    (λ r, if String.eqb (id r) "D2" then Raise TypeError else Ok (row_node r)).

(** * Properties *)

(** ** Splitting identifiers *)

Example split_on_url :
  py_last_segment (JStr "https://openalex.org/W2741809807") = Ok "W2741809807".
Proof. reflexivity. Qed.

Example split_on_plain : py_last_segment (JStr "C15151743") = Ok "C15151743".
Proof. reflexivity. Qed.

(** ** The monad *)

Lemma bind_ok {S A B} (m : M S A) (k : A → M S B) s a s' :
  m s = (Ok a, s') → (m ≫= k) s = k a s'.
Proof. intros H. unfold mbind, M_bind, bind. by rewrite H. Qed.

Lemma bind_raise {S A B} (m : M S A) (k : A → M S B) s e s' :
  m s = (Raise e, s') → (m ≫= k) s = (Raise e, s').
Proof. intros H. unfold mbind, M_bind, bind. by rewrite H. Qed.

Lemma for_each_app {S A} (xs ys : list A) (body : A → M S unit) s s' :
  for_each xs body s = (Ok tt, s') →
  for_each (xs ++ ys) body s = for_each ys body s'.
Proof.
  revert s. induction xs as [|x xs IH]; intros s H; simpl in *.
  - unfold ret in H. by simplify_eq.
  - unfold mbind, M_bind, bind in *.
    destruct (body x s) as [[[]|e] s1]; [|done]. by apply IH.
Qed.

(** ** The worker task *)

Section worker_props.
Variable json_loads : string → option json.
Variable json_dumps : json → string.
Variable bucket : string → fetch_result.

Local Abbreviation line_step := (process_line json_loads json_dumps).
Local Abbreviation batch_of_lines := (read_lines json_loads json_dumps).
Local Abbreviation batch_of_shard := (shard_batches json_loads json_dumps).
Local Abbreviation worker :=
  (process_single_file json_loads json_dumps bucket).

(** The inner [except Exception: continue] catches everything. *)
Lemma process_line_ok line a : ∃ a', line_step line a = (Ok tt, a').
Proof.
  unfold process_line, try_except.
  destruct (process_record _ _ _ _) as [[[]|e] a']; unfold ret; eauto.
Qed.

Lemma lines_loop_ok ls a :
  for_each ls line_step a = (Ok tt, (for_each ls line_step a).2).
Proof.
  revert a. induction ls as [|l ls IH]; intros a; [done|].
  simpl. destruct (process_line_ok l a) as [a' Ha].
  rewrite !(bind_ok _ _ _ _ _ Ha). apply IH.
Qed.

(** A line that [json.loads] rejects leaves the accumulators alone. *)
Lemma malformed_line_skipped line a :
  json_loads line = None → line_step line a = (Ok tt, a).
Proof.
  intros H. unfold process_line, try_except, process_record.
  unfold mbind, M_bind, bind, lift_res. by rewrite H.
Qed.

Lemma read_lines_skip l1 bad l2 :
  json_loads bad = None →
  batch_of_lines (l1 ++ bad :: l2) = batch_of_lines (l1 ++ l2).
Proof.
  intros H. unfold read_lines.
  rewrite !(for_each_app l1 _ _ _ _ (lines_loop_ok l1 _)).
  simpl. by rewrite (bind_ok _ _ _ _ _ (malformed_line_skipped _ _ H)).
Qed.

(** What the worker returns and what it leaves behind, on every path. *)
Lemma process_single_file_spec pid s3_key w :
  ∃ out,
    worker pid s3_key w =
      (Ok (batch_of_shard (bucket s3_key)),
       World (delete (local_filename pid) (files w)) out).
Proof.
  unfold process_single_file, worker_body, try_finally, try_except.
  unfold download_file, read_shard, cleanup.
  unfold mbind, M_bind, bind, get_state, raise, modify, ret, on_acc.
  destruct (bucket s3_key) as [|f] eqn:Hb; simpl.
  - destruct (files w !! local_filename pid) eqn:Hf; simpl.
    + eauto.
    + rewrite delete_id by done. eauto.
  - rewrite lookup_insert_eq. simpl.
    rewrite (lines_loop_ok (lines f) ([], [])). simpl.
    destruct (ending f); simpl; rewrite ?lookup_insert_eq; simpl;
      rewrite delete_insert_eq; eauto.
Qed.

Lemma imap_unordered_spec tasks w :
  (imap_unordered json_loads json_dumps bucket tasks w).1 =
    (λ t, Ok (batch_of_shard (bucket t.2))) <$> tasks.
Proof.
  revert w. induction tasks as [|[pid key] tasks IH]; intros w; [done|].
  simpl. destruct (process_single_file_spec pid key w) as [out ->].
  specialize (IH (World (delete (local_filename pid) (files w)) out)).
  destruct (imap_unordered _ _ _ tasks _) as [rs w'']. simpl in *.
  by rewrite IH.
Qed.

End worker_props.

(** C9. On every exit path of the worker task (shard processed, download
    failed, shard unreadable), the task returns and the temporary file
    of its process does not exist afterwards. *)
Theorem C9_temp_file_removed (json_loads : string → option json)
    (json_dumps : json → string) (bucket : string → fetch_result)
    (pid : N) (s3_key : string) (w : world) :
  ∃ b w', process_single_file json_loads json_dumps bucket pid s3_key w = (Ok b, w')
          ∧ files w' !! local_filename pid = None.
Proof.
  destruct (process_single_file_spec json_loads json_dumps bucket pid s3_key w)
    as [out ->].
  eexists _, _. split; [done|]. simpl. apply lookup_delete_eq.
Qed.

(** C4, as amended. The worker task never propagates an error: when the
    fetch raises it returns the empty pair, and when the reading of the
    shard raises it returns what the lines read before the failure gave.
    The pool yields exactly one result per submitted shard, each
    determined by its own shard alone. A line that fails to parse is
    skipped without effect on the other lines of the shard. *)
Theorem C4_shard_failure_isolation (json_loads : string → option json)
    (json_dumps : json → string) (bucket : string → fetch_result)
    (all_keys : list string) (tasks : list (N * string)) (w : world)
    (pid : N) (s3_key : string) (w0 : world) (l1 l2 : list string) (bad : string) :
  completion_order all_keys tasks →
  json_loads bad = None →
  (imap_unordered json_loads json_dumps bucket tasks w).1 =
    (λ t, Ok (shard_batches json_loads json_dumps (bucket t.2))) <$> tasks
  ∧ (imap_unordered json_loads json_dumps bucket tasks w).1 ≡ₚ
    (λ k, Ok (shard_batches json_loads json_dumps (bucket k))) <$> all_keys
  ∧ (bucket s3_key = FetchFails →
     (process_single_file json_loads json_dumps bucket pid s3_key w0).1 = Ok ([], []))
  ∧ (∀ ls e, bucket s3_key = Fetched (ShardFile ls e) →
     (process_single_file json_loads json_dumps bucket pid s3_key w0).1 =
       Ok (read_lines json_loads json_dumps ls))
  ∧ read_lines json_loads json_dumps (l1 ++ bad :: l2) =
    read_lines json_loads json_dumps (l1 ++ l2).
Proof.
  intros Horder Hbad. split; [apply imap_unordered_spec|].
  split.
  { rewrite imap_unordered_spec. unfold completion_order in Horder.
    rewrite <- Horder, <- list_fmap_compose. done. }
  destruct (process_single_file_spec json_loads json_dumps bucket pid s3_key w0)
    as [out ->]. simpl.
  repeat split.
  - by intros ->.
  - by intros ls e ->.
  - by apply read_lines_skip.
Qed.

Lemma C4_shard_failure_isolation_witness :
  sample_loads "not json" = None
  ∧ (imap_unordered sample_loads sample_dumps sample_bucket
       [(11, "data/works/part_001.gz"); (12, "data/works/part_002.gz");
        (11, "data/works/part_000.gz")]%N (World ∅ [])).1 =
      [Ok ([sample_row], [("W1", "W2")]); Ok ([], []);
       Ok ([sample_row], [("W1", "W2")])]
  ∧ read_lines sample_loads sample_dumps [sample_line; "not json"] =
    read_lines sample_loads sample_dumps [sample_line].
Proof.
  assert (H : sample_loads "not json" = None) by reflexivity.
  assert (Ho : completion_order
                 ["data/works/part_000.gz"; "data/works/part_001.gz";
                  "data/works/part_002.gz"]
                 [(11, "data/works/part_001.gz"); (12, "data/works/part_002.gz");
                  (11, "data/works/part_000.gz")]%N).
  { unfold completion_order. simpl.
    etrans; [apply perm_skip, perm_swap|]. apply perm_swap. }
  split; [exact H|].
  destruct (C4_shard_failure_isolation sample_loads sample_dumps sample_bucket
              _ _ (World ∅ [])
              12%N "data/works/part_002.gz" (World ∅ []) [sample_line] [] "not json"
              Ho H)
    as (Hpool & _ & _ & _ & Hskip).
  split; [rewrite Hpool; vm_compute; reflexivity | exact Hskip].
Defined.

(** C4, as stated, fails: the gzip stream of a shard breaks after a
    matching record was read, the outer [try] raises, and the worker
    returns that record and its citation, not the empty pair. *)
Lemma C4_counterexample :
  shard_raises sample_loads sample_dumps sample_bucket 11
    "data/works/part_001.gz" (World ∅ [])
  ∧ (process_single_file sample_loads sample_dumps sample_bucket 11
       "data/works/part_001.gz" (World ∅ [])).1
    = Ok ([sample_row], [("W1", "W2")])
  ∧ (process_single_file sample_loads sample_dumps sample_bucket 11
       "data/works/part_001.gz" (World ∅ [])).1
    ≠ Ok ([], []).
Proof.
  split; [|split].
  - eexists _, _. vm_compute. reflexivity.
  - vm_compute. reflexivity.
  - vm_compute. discriminate.
Qed.

(** ** The store writer *)














(** The bulk insert of ingest.py is another statement: a plain [INSERT],
    which DuckDB rejects as a whole on a key conflict; [ingest_works]
    logs the error and leaves the table as it was. *)
Lemma ingest_works_conflict t lg selected :
  insert_select_works t selected = Raise SqlError →
  ingest_works selected (t, lg) = (Ok tt, (t, lg ++ ["Error during Works ingestion"])).
Proof.
  intros H. unfold ingest_works, try_except.
  unfold mbind, M_bind, bind, get_state, lift_res, modify. simpl. by rewrite H.
Qed.

Example ingest_works_duplicate :
  ingest_works [sample_row; sample_row_again] ([], []) =
    (Ok tt, ([], ["Error during Works ingestion"])).
Proof. reflexivity. Qed.

(** ** The embedding cache *)

Section engine_props.
Context {Vec Stored Score : Type} (X : collaborators Vec Stored Score).

Lemma load_model_loaded (s : sys Stored) :
  is_loaded s = true → load_model X s = (Ok tt, s).
Proof.
  intros H. unfold load_model, mbind, M_bind, bind, get_state. by rewrite H.
Qed.

Lemma load_model_ok_inv (s s' : sys Stored) :
  load_model X s = (Ok tt, s') →
  is_loaded s' = true ∧ vector_cache s' = vector_cache s
  ∧ (is_loaded s = true ∨ load_pretrained X = Ok tt)
  ∧ (is_loaded s = true → s' = s).
Proof.
  unfold load_model, try_except, emit, set_loaded.
  unfold mbind, M_bind, bind, get_state, lift_res, modify, raise, ret.
  destruct s as [ws cs vc ld tr]; simpl.
  destruct ld; simpl.
  - intros [= <-]. auto.
  - destruct (load_pretrained X) as [[]|e]; simpl; intros [= <-]; simpl.
    split_and!; auto. done.
Qed.

Lemma load_model_raise_inv (s s' : sys Stored) e :
  load_model X s = (Raise e, s') →
  is_loaded s = false ∧ load_pretrained X = Raise e
  ∧ vector_cache s' = vector_cache s.
Proof.
  unfold load_model, try_except, emit, set_loaded.
  unfold mbind, M_bind, bind, get_state, lift_res, modify, raise, ret.
  destruct s as [ws cs vc ld tr]; simpl.
  destruct ld; simpl; [done|].
  destruct (load_pretrained X) as [[]|e']; simpl; [done|].
  by intros [= -> <-].
Qed.

Lemma load_model_fails (s : sys Stored) e :
  is_loaded s = false → load_pretrained X = Raise e →
  ∃ s', load_model X s = (Raise e, s') ∧ vector_cache s' = vector_cache s.
Proof.
  intros Hl He. unfold load_model, try_except, emit, set_loaded.
  unfold mbind, M_bind, bind, get_state, lift_res, modify, raise, ret.
  rewrite Hl, He. simpl. by eexists.
Qed.

Lemma load_model_succeeds (s : sys Stored) :
  is_loaded s = true ∨ load_pretrained X = Ok tt →
  ∃ s', load_model X s = (Ok tt, s') ∧ vector_cache s' = vector_cache s.
Proof.
  intros H. destruct (is_loaded s) eqn:Hl.
  - exists s. by rewrite load_model_loaded.
  - destruct H as [?|He]; [done|].
    unfold load_model, try_except, emit, set_loaded.
    unfold mbind, M_bind, bind, get_state, lift_res, modify, raise, ret.
    rewrite Hl, He. simpl. by eexists.
Qed.

(** What the cache query gives for a requested identifier. *)
Lemma cached_lookup (ids0 : list string) (vc : gmap string Stored) k :
  k ∈ ids0 →
  (np_array X <$> filter (λ kv, kv.1 ∈ ids0) vc) !! k = np_array X <$> vc !! k.
Proof.
  intros Hk. rewrite lookup_fmap. f_equal.
  destruct (vc !! k) as [v|] eqn:E.
  - by apply map_lookup_filter_Some_2.
  - apply map_lookup_filter_None_2. by left.
Qed.

Lemma zip_fst_elem {A B} (l1 : list A) (l2 : list B) kp :
  kp ∈ zip l1 l2 → kp.1 ∈ l1.
Proof.
  revert l2. induction l1 as [|a l1 IH]; intros [|b l2]; simpl;
    try (by intros ?%elem_of_nil).
  rewrite elem_of_cons. intros [->|H]; [left | right; eauto].
Qed.

Lemma missing_filter (ids0 : list string) (papers : list paper) (s : sys Stored) :
  filter (λ kp, (np_array X <$> filter (λ kv, kv.1 ∈ ids0) (vector_cache s))
                  !! kp.1 = None) (zip ids0 papers)
  = missing_papers s ids0 papers.
Proof.
  unfold missing_papers.
  assert (Hin : ∀ kp, kp ∈ zip ids0 papers → kp.1 ∈ ids0)
    by apply zip_fst_elem.
  induction (zip ids0 papers) as [|kp l IH]; [done|].
  rewrite !filter_cons, IH by (intros; apply Hin; by right).
  rewrite cached_lookup by (apply Hin; left).
  destruct (vector_cache s !! kp.1); simpl; repeat case_decide; done.
Qed.

Lemma missing_papers_cache (s s' : sys Stored) ids0 papers :
  vector_cache s' = vector_cache s →
  missing_papers s' ids0 papers = missing_papers s ids0 papers.
Proof. unfold missing_papers. by intros ->. Qed.

(** [get_embeddings] once the model is there. *)
Lemma get_embeddings_forward_fails (s : sys Stored) papers ids0 texts e :
  is_loaded s = true →
  map_res paper_id papers = Ok ids0 →
  forallb sql_plain ids0 = true →
  map_res paper_text (missing_papers s ids0 papers).*2 = Ok texts →
  texts ≠ [] →
  forward X texts = Raise e →
  ∃ s', get_embeddings X papers s = (Raise e, s')
        ∧ vector_cache s' = vector_cache s.
Proof.
  intros Hl Hids Hplain Htexts Hne Hf.
  assert (Hmiss : missing_papers s ids0 papers ≠ []).
  { intros E. rewrite E in Htexts. simpl in Htexts. by simplify_eq. }
  assert (Hids0 : ids0 ≠ []).
  { intros ->. by apply Hmiss. }
  unfold get_embeddings.
  rewrite (bind_ok _ _ _ _ _ (load_model_loaded s Hl)).
  unfold select_cached, emit.
  unfold mbind, M_bind, bind, lift_res, get_state, ret, raise, modify.
  rewrite Hids. rewrite bool_decide_false by done. rewrite Hplain.
  rewrite missing_filter. rewrite bool_decide_true by done.
  simpl. rewrite Htexts. simpl. rewrite Hf. by eexists.
Qed.

End engine_props.

(** C1, as amended. When the encoder fails during [get_embeddings]
    (the model cannot be loaded, or the forward pass on the missing
    papers fails), the failure propagates for the whole call: nothing
    is returned, the already-cached entries included. The vector cache
    itself is left as it was. *)
Theorem C1_encoder_failure_propagates {Vec Stored Score : Type}
    (X : collaborators Vec Stored Score) (papers : list paper)
    (s : sys Stored) (e : exn) :
  encoder_fails X papers s e →
  ∃ s', get_embeddings X papers s = (Raise e, s')
        ∧ vector_cache s' = vector_cache s.
Proof.
  intros [[Hl He]|[Hready (ids0 & texts & Hids & Hplain & Htexts & Hne & Hf)]].
  - destruct (load_model_fails X s e Hl He) as (s' & Hs' & Hvc).
    exists s'. split; [|done].
    unfold get_embeddings. by rewrite (bind_raise _ _ _ _ _ Hs').
  - destruct (load_model_succeeds X s Hready) as (s1 & Hs1 & Hvc1).
    destruct (load_model_ok_inv X s s1 Hs1) as (Hl1 & _ & _ & _).
    destruct (get_embeddings_forward_fails X s1 papers ids0 texts e)
      as (s' & Hs' & Hvc'); try done.
    { by rewrite (missing_papers_cache s s1). }
    exists s'. split; [|congruence].
    unfold get_embeddings in *.
    rewrite (bind_ok _ _ _ _ _ Hs1).
    by rewrite (bind_ok _ _ _ _ _ (load_model_loaded X s1 Hl1)) in Hs'.
Qed.

Lemma C1_encoder_failure_propagates_witness :
  encoder_fails (sample_engine (Ok tt) false) [paper_A; paper_B] sample_cache_A
    EncoderError
  ∧ ∃ s', get_embeddings (sample_engine (Ok tt) false) [paper_A; paper_B]
            sample_cache_A = (Raise EncoderError, s')
          ∧ vector_cache s' = vector_cache sample_cache_A.
Proof.
  assert (H : encoder_fails (sample_engine (Ok tt) false) [paper_A; paper_B]
                sample_cache_A EncoderError).
  { right. split; [by left|]. exists ["A"; "B"], ["On B "].
    split_and!; try reflexivity. discriminate. }
  split; [exact H|].
  exact (C1_encoder_failure_propagates (sample_engine (Ok tt) false)
           [paper_A; paper_B] sample_cache_A EncoderError H).
Defined.

(** C1, as stated, fails: the vector of A is cached, B is missing, the
    forward pass for B fails, and the call raises; the cached vector of
    A is not returned. *)
Lemma C1_counterexample :
  vector_cache sample_cache_A !! "A" = Some 5%Z
  ∧ vector_cache sample_cache_A !! "B" = None
  ∧ forward (sample_engine (Ok tt) false) ["On B "] = Raise EncoderError
  ∧ (get_embeddings (sample_engine (Ok tt) false) [paper_A; paper_B]
       sample_cache_A).1 = Raise EncoderError.
Proof. split_and!; vm_compute; reflexivity. Qed.

Section cache_hit.
Context {Vec Stored Score : Type} (X : collaborators Vec Stored Score).





End cache_hit.



(** C7. For a seed whose vector is not in the cache,
    [calculate_similarity] returns the empty list, not an error, and
    its only effect is one warning in the log: the encoder is not
    called and the tables are not touched. *)
Theorem C7_uncached_seed {Vec Stored Score : Type}
    (X : collaborators Vec Stored Score) (seed_id : string) (limit : nat)
    (s : sys Stored) :
  vector_cache s !! seed_id = None →
  calculate_similarity X seed_id limit s =
    (Ok [],
     Sys (db_works s) (db_citations s) (vector_cache s) (is_loaded s)
         (trace s ++ [LogWarning ("No embedding found for seed " +:+ seed_id +:+
                                  ". Cannot calculate similarity.")])).
Proof.
  intros H. unfold calculate_similarity, emit.
  unfold mbind, M_bind, bind, get_state, modify, ret. by rewrite H.
Qed.

Lemma C7_uncached_seed_witness :
  vector_cache sample_cache_A !! "B" = None
  ∧ calculate_similarity (sample_engine (Ok tt) true) "B" 20 sample_cache_A =
      (Ok [],
       Sys [] [] {["A" := 5%Z]} true
           [LogWarning "No embedding found for seed B. Cannot calculate similarity."]).
Proof.
  split; [reflexivity|].
  exact (C7_uncached_seed (sample_engine (Ok tt) true) "B" 20 sample_cache_A eq_refl).
Defined.

(** ** The similarity query *)

Section ranking.
Context {Vec Stored Score : Type} (X : collaborators Vec Stored Score).



(** The order of [ORDER BY] is a total preorder on scores. *)
Hypothesis score_le_total :
  ∀ a b, score_le X a b = true ∨ score_le X b a = true.
Hypothesis score_le_trans :
  ∀ a b c, score_le X a b = true → score_le X b c = true →
           score_le X a c = true.

Local Instance score_desc_total : Total (score_desc X).
Proof using score_le_total.
  intros a b. unfold score_desc.
  destruct (score_le_total a.2 b.2) as [H|H]; rewrite H; simpl; auto.
Qed.

Local Instance score_desc_trans : Transitive (score_desc X).
Proof using score_le_trans.
  intros a b c. unfold score_desc.
  rewrite !Is_true_true. intros Hab Hbc. by apply (score_le_trans _ b.2).
Qed.


End ranking.




Example calculate_similarity_sample :
  (calculate_similarity (sample_engine (Ok tt) true) "D1" 5 sample_graph).1
    = Ok [("D2", 1%Z)].
Proof. vm_compute. reflexivity. Qed.

(** ** Graph expansion *)















Section expansion.
Context {Vec Stored Score : Type} (X : collaborators Vec Stored Score).




End expansion.





Example expand_graph_orphan :
  (expand_graph (sample_engine (Ok tt) true) "D1" sample_orphan).1 =
    Ok ([central_node (sample_engine (Ok tt) true) (row_D "D1" "First")], []).
Proof. vm_compute. reflexivity. Qed.




(** * Further properties of the modelled code *)

(** ** [split('/')] and the last segment *)

Lemma split_on_nonempty sep s : split_on sep s ≠ [].
Proof.
  destruct s as [|c s]; simpl; [done|].
  destruct (Ascii.eqb c sep); [done|]. by destruct (split_on sep s).
Qed.

Lemma join_with_cons_char sep c h t :
  join_with sep (String c h :: t) = String c (join_with sep (h :: t)).
Proof. by destruct t. Qed.

(** Joining the pieces of a split gives the string back. *)
Lemma join_split_on sep s : join_with sep (split_on sep s) = s.
Proof.
  induction s as [|c s IH]; simpl; [done|].
  destruct (Ascii.eqb c sep) eqn:E.
  - apply Ascii.eqb_eq in E as ->.
    destruct (split_on sep s) as [|h t] eqn:Hs; [by apply split_on_nonempty in Hs|].
    by rewrite <- IH.
  - destruct (split_on sep s) as [|h t] eqn:Hs; [by apply split_on_nonempty in Hs|].
    by rewrite join_with_cons_char, IH.
Qed.

Lemma split_on_pieces sep s :
  Forall (λ x, has_char sep x = false) (split_on sep s).
Proof.
  induction s as [|c s IH]; simpl; [by repeat constructor|].
  destruct (Ascii.eqb c sep) eqn:E; [by constructor|].
  destruct (split_on sep s) as [|h t].
  { constructor; [|constructor]. simpl. by rewrite E. }
  apply Forall_cons in IH as [Hh Ht]. constructor; [|done].
  simpl. by rewrite E, Hh.
Qed.

Lemma split_on_plain_string sep s :
  has_char sep s = false → split_on sep s = [s].
Proof.
  induction s as [|c s IH]; simpl; [done|].
  destruct (Ascii.eqb c sep); simpl; [done|]. intros H. by rewrite IH.
Qed.

Lemma join_with_last sep l :
  l ≠ [] → ∃ pre, join_with sep l = pre +:+ List.last l EmptyString.
Proof.
  induction l as [|x l IH]; [done|]. intros _.
  destruct l as [|y l]; [by exists EmptyString|].
  destruct IH as [pre Hpre]; [done|].
  exists (x +:+ String sep pre).
  change (join_with sep (x :: y :: l)) with (x +:+ String sep (join_with sep (y :: l))).
  rewrite Hpre. change (List.last (x :: y :: l) EmptyString)
    with (List.last (y :: l) EmptyString).
  generalize (List.last (y :: l) EmptyString). intros r.
  induction x as [|c x IHx]; [done|].
  change (String c (x +:+ String sep (pre +:+ r)) =
          String c ((x +:+ String sep pre) +:+ r)). by f_equal.
Qed.

Lemma last_elem {A} (l : list A) d : l ≠ [] → List.last l d ∈ l.
Proof.
  induction l as [|x l IH]; [done|]. intros _.
  destruct l as [|y l]; [apply list_elem_of_here|].
  right. by apply IH.
Qed.

(** X1. [v.split('/')[-1]] on a string never fails; what it gives has
    no slash and is the end of the string, and a string without a slash
    is given back as it is. *)
Theorem X1_last_segment (s : string) :
  ∃ r pre,
    py_last_segment (JStr s) = Ok r
    ∧ has_char slash r = false
    ∧ s = pre +:+ r
    ∧ (has_char slash s = false → r = s).
Proof.
  destruct (join_with_last slash (split_on slash s) (split_on_nonempty _ _))
    as [pre Hpre].
  rewrite join_split_on in Hpre.
  exists (List.last (split_on slash s) EmptyString), pre. split_and!; [done| |done|].
  - pose proof (split_on_pieces slash s) as Hall. rewrite Forall_forall in Hall.
    apply Hall, last_elem, split_on_nonempty.
  - intros H. by rewrite split_on_plain_string.
Qed.

(** ** [safe_get_author] and [safe_get_venue] *)

Lemma py_getitem_raises d key e :
  py_getitem d key = Raise e → e = KeyError ∨ e = TypeError.
Proof.
  destruct d; simpl; try (intros [= <-]; auto).
  destruct (assoc_get key fields); [done|]. intros [= <-]. auto.
Qed.

Lemma py_getitem0_raises d e :
  py_getitem0 d = Raise e → e = KeyError ∨ e = IndexError ∨ e = TypeError.
Proof.
  destruct d as [| | |[|c s]|[|x l]|]; simpl; try done; intros [= <-]; auto.
Qed.

Lemma get_author_path_raises work e :
  get_author_path work = Raise e → e ∈ [KeyError; IndexError; TypeError].
Proof.
  unfold get_author_path, res_bind.
  destruct (py_getitem work "authorships") as [a|e1] eqn:H1.
  2:{ intros [= <-]. apply py_getitem_raises in H1 as [->| ->]; set_solver. }
  destruct (py_getitem0 a) as [a0|e2] eqn:H2.
  2:{ intros [= <-]. apply py_getitem0_raises in H2 as [->|[->| ->]]; set_solver. }
  destruct (py_getitem a0 "author") as [au|e3] eqn:H3.
  2:{ intros [= <-]. apply py_getitem_raises in H3 as [->| ->]; set_solver. }
  intros H4. apply py_getitem_raises in H4 as [->| ->]; set_solver.
Qed.

Lemma get_venue_path_raises work e :
  get_venue_path work = Raise e → e ∈ [KeyError; TypeError].
Proof.
  unfold get_venue_path, res_bind.
  destruct (py_getitem work "primary_location") as [a|e1] eqn:H1.
  2:{ intros [= <-]. apply py_getitem_raises in H1 as [->| ->]; set_solver. }
  destruct (py_getitem a "source") as [a0|e2] eqn:H2.
  2:{ intros [= <-]. apply py_getitem_raises in H2 as [->| ->]; set_solver. }
  intros H4. apply py_getitem_raises in H4 as [->| ->]; set_solver.
Qed.

Lemma safe_get_author_spec {S : Type} (work : json) (s : S) :
  safe_get_author work s = (Ok (result_or_none (get_author_path work)), s).
Proof.
  unfold safe_get_author, try_except_only, lift_res, ret.
  destruct (get_author_path work) as [v|e] eqn:H; [done|].
  apply get_author_path_raises in H. by rewrite bool_decide_true.
Qed.

Lemma safe_get_venue_spec {S : Type} (work : json) (s : S) :
  safe_get_venue work s = (Ok (result_or_none (get_venue_path work)), s).
Proof.
  unfold safe_get_venue, try_except_only, lift_res, ret.
  destruct (get_venue_path work) as [v|e] eqn:H; [done|].
  apply get_venue_path_raises in H. by rewrite bool_decide_true.
Qed.

(** X2. The two safe getters never raise, whatever the record is: the
    exception classes they name cover every exception their path can
    raise. They give the display name when the path is there and
    [None] otherwise, and leave the state alone. *)
Theorem X2_safe_getters_never_raise {S : Type} (work : json) (s : S) :
  safe_get_author work s = (Ok (result_or_none (get_author_path work)), s)
  ∧ safe_get_venue work s = (Ok (result_or_none (get_venue_path work)), s).
Proof. split; [apply safe_get_author_spec | apply safe_get_venue_spec]. Qed.

(** ** The record filter *)

Section filter_props.
Variable json_loads : string → option json.
Variable json_dumps : json → string.

(** The loop over the references: citations are appended up to the
    first reference that is not a string. *)
Lemma refs_loop work_id rs (a : acc) :
  ∃ r0, for_each rs (λ ref,
          target ← lift_res (py_last_segment ref);
          modify (append_citation (work_id, target))) a
        = (r0, (a.1, a.2 ++ ((λ t, (work_id, t)) <$> ref_targets rs))).
Proof.
  revert a. induction rs as [|r rs IH]; intros [ws cs]; simpl.
  - rewrite app_nil_r. by eexists.
  - destruct (py_last_segment r) as [t|e] eqn:Hr.
    + destruct (IH (ws, cs ++ [(work_id, t)])) as [r0 Hr0].
      exists r0.
      assert (Hb : (target ← lift_res (Ok t);
                    modify (append_citation (work_id, target))) (ws, cs)
                   = (Ok tt, (ws, cs ++ [(work_id, t)]))) by done.
      rewrite (bind_ok _ _ _ _ _ Hb), Hr0. simpl. by rewrite <- app_assoc.
    + exists (Raise e). rewrite app_nil_r. by apply bind_raise.
Qed.

Lemma process_record_spec line (a : acc) :
  ∃ r0, process_record json_loads json_dumps line a
        = (r0, after_line json_loads json_dumps line a).
Proof.
  unfold process_record, after_line, line_row, line_citations.
  unfold mbind at 1, M_bind at 1, bind at 1, lift_res at 1.
  destruct (json_loads line) as [work|]; [|by eexists].
  destruct work as [| | | | |kvs];
    try (unfold mbind, M_bind, bind, lift_res; simpl; by eexists).
  unfold concept_ids, extract_row, field. simpl.
  unfold mbind at 1, M_bind at 1, bind at 1, lift_res at 1.
  unfold mbind at 1, M_bind at 1, bind at 1, lift_res at 1.
  destruct (py_iter _) as [cs|e]; simpl; [|by eexists].
  unfold mbind at 1, M_bind at 1, bind at 1, lift_res at 1.
  destruct (map_res _ cs) as [ids0|e]; simpl; [|by eexists].
  destruct (isdisjoint ids0 TARGET_CONCEPT_IDS); simpl; [by eexists|].
  unfold mbind at 1, M_bind at 1, bind at 1, lift_res at 1.
  destruct (assoc_get "id" kvs) as [wid|]; simpl; [|by eexists].
  unfold mbind at 1, M_bind at 1, bind at 1, lift_res at 1.
  destruct (py_last_segment wid) as [work_id|e]; simpl; [|by eexists].
  unfold mbind, M_bind, bind, lift_res, modify. simpl.
  rewrite safe_get_author_spec, safe_get_venue_spec. simpl.
  destruct (py_iter _) as [rs|e]; simpl; [|rewrite app_nil_r; by eexists].
  destruct (refs_loop work_id rs
              (append_work
                 (WorkRow work_id
                    (match assoc_get "doi" kvs with Some v => v | None => JNull end)
                    (match assoc_get "title" kvs with Some v => v | None => JNull end)
                    (match assoc_get "publication_year" kvs with Some v => v | None => JNull end)
                    (match assoc_get "cited_by_count" kvs with Some v => v | None => JNull end)
                    (result_or_none (get_author_path (JObj kvs)))
                    (result_or_none (get_venue_path (JObj kvs)))
                    (JStr (json_dumps
                       (match assoc_get "abstract_inverted_index" kvs with
                        | Some v => v | None => JNull end)))) a))
    as [r0 Hr0].
  unfold mbind, M_bind, bind, lift_res, modify in Hr0.
  rewrite Hr0. by eexists.
Qed.

End filter_props.

Section line_props.
Variable json_loads : string → option json.
Variable json_dumps : json → string.

Lemma process_line_spec line (a : acc) :
  process_line json_loads json_dumps line a
  = (Ok tt, after_line json_loads json_dumps line a).
Proof.
  unfold process_line, try_except.
  destruct (process_record_spec json_loads json_dumps line a) as [[[]|e] ->]; done.
Qed.

Lemma lines_loop_spec ls (a : acc) :
  (for_each ls (process_line json_loads json_dumps) a).2
  = (a.1 ++ omap (line_row json_loads json_dumps) ls,
     a.2 ++ (line ← ls;
             match line_row json_loads json_dumps line with
             | Some r => line_citations json_loads line (id r)
             | None => []
             end)).
Proof.
  revert a. induction ls as [|l ls IH]; intros [ws cs]; simpl.
  - by rewrite !app_nil_r.
  - rewrite (bind_ok _ _ _ _ _ (process_line_spec l (ws, cs))), IH.
    unfold after_line.
    destruct (line_row json_loads json_dumps l) as [r|]; simpl; [|done].
    by rewrite <- !app_assoc.
Qed.

Lemma py_last_segment_no_slash v t :
  py_last_segment v = Ok t → has_char slash t = false.
Proof.
  destruct v; try done. simpl. intros [= <-].
  pose proof (split_on_pieces slash s) as Hall. rewrite Forall_forall in Hall.
  apply Hall, last_elem, split_on_nonempty.
Qed.

Lemma ref_targets_no_slash rs t : t ∈ ref_targets rs → has_char slash t = false.
Proof.
  induction rs as [|r rs IH]; simpl; [by intros ?%elem_of_nil|].
  destruct (py_last_segment r) as [t'|] eqn:E; [|by intros ?%elem_of_nil].
  intros [->|?]%elem_of_cons; [by eapply py_last_segment_no_slash | auto].
Qed.

Lemma line_row_no_slash line r :
  line_row json_loads json_dumps line = Some r → has_char slash (id r) = false.
Proof.
  unfold line_row, extract_row, res_bind.
  destruct (json_loads line) as [work|]; [|done].
  destruct (concept_ids work) as [cs|]; [|done].
  destruct (isdisjoint cs TARGET_CONCEPT_IDS); [done|].
  destruct (py_getitem work "id") as [wid|]; [|done].
  destruct (py_last_segment wid) as [t|] eqn:E; [|done].
  intros [= <-]. simpl. by eapply py_last_segment_no_slash.
Qed.

Lemma isdisjoint_false c cs ts : c ∈ cs → c ∈ ts → isdisjoint cs ts = false.
Proof.
  intros Hc Ht. unfold isdisjoint.
  induction cs as [|x cs IH]; [by apply elem_of_nil in Hc|]. simpl.
  apply elem_of_cons in Hc as [<-|Hc].
  - by rewrite bool_decide_true.
  - rewrite IH by done. apply andb_false_r.
Qed.

Lemma ref_targets_strings refs :
  ref_targets (JStr <$> refs) = last_segment <$> refs.
Proof. induction refs as [|r refs IH]; simpl; [done|]. f_equal. apply IH. Qed.

End line_props.

(** X3. What a shard gives is decided line by line: [found_works] holds,
    in the order of the lines, the row of every line that parses,
    carries a target concept and has a readable identifier, and nothing
    else; [found_citations] holds the citations of those lines, in the
    same order. *)
Theorem X3_filter_by_line (json_loads : string → option json)
    (json_dumps : json → string) (ls : list string) :
  read_lines json_loads json_dumps ls =
    (omap (line_row json_loads json_dumps) ls,
     line ← ls;
     match line_row json_loads json_dumps line with
     | Some r => line_citations json_loads line (id r)
     | None => []
     end).
Proof. unfold read_lines. by rewrite lines_loop_spec. Qed.

(** X4. In what a shard gives, every citation starts at a work of the
    same result, and no identifier, of a work or of either end of a
    citation, contains a slash. *)
Theorem X4_citations_of_kept_works (json_loads : string → option json)
    (json_dumps : json → string) (ls : list string) :
  (∀ c, c ∈ (read_lines json_loads json_dumps ls).2 →
     c.1 ∈ ids (read_lines json_loads json_dumps ls).1
     ∧ has_char slash c.1 = false ∧ has_char slash c.2 = false)
  ∧ (∀ r, r ∈ (read_lines json_loads json_dumps ls).1 →
       has_char slash (id r) = false).
Proof.
  unfold read_lines. rewrite lines_loop_spec. simpl. split.
  - intros c (line & Hc & Hline)%list_elem_of_bind.
    destruct (line_row json_loads json_dumps line) as [r|] eqn:Hr;
      [|by apply elem_of_nil in Hc].
    assert (Hsrc : c.1 = id r ∧ has_char slash c.2 = false).
    { unfold line_citations in Hc. destruct (json_loads line); [|by apply elem_of_nil in Hc].
      destruct (res_bind _ _) as [rs|]; [|by apply elem_of_nil in Hc].
      apply list_elem_of_fmap in Hc as (t & -> & Ht). simpl.
      split; [done|]. by eapply ref_targets_no_slash. }
    destruct Hsrc as [-> Htgt]. split_and!; [|by eapply line_row_no_slash|done].
    unfold ids. apply list_elem_of_fmap_2.
    apply list_elem_of_omap. eauto.
  - intros r (line & _ & Hr)%list_elem_of_omap. by eapply line_row_no_slash.
Qed.

(** X5. A record that is an object with a string identifier, with a
    target concept among its concepts and a list of strings as its
    references, adds exactly one row, whose identifier is the last
    segment of the record's and whose missing fields are [None], and
    one citation per reference, in their order. *)
Theorem X5_kept_record (json_loads : string → option json)
    (json_dumps : json → string) (line : string) (a : acc)
    (kvs : list (string * json)) (cs : list string) (c wid : string)
    (refs : list string) :
  json_loads line = Some (JObj kvs) →
  concept_ids (JObj kvs) = Ok cs →
  c ∈ cs → c ∈ TARGET_CONCEPT_IDS →
  assoc_get "id" kvs = Some (JStr wid) →
  assoc_get "referenced_works" kvs = Some (JArr (JStr <$> refs)) →
  process_line json_loads json_dumps line a =
    (Ok tt,
     (a.1 ++ [WorkRow (last_segment wid)
                (field (JObj kvs) "doi") (field (JObj kvs) "title")
                (field (JObj kvs) "publication_year")
                (field (JObj kvs) "cited_by_count")
                (result_or_none (get_author_path (JObj kvs)))
                (result_or_none (get_venue_path (JObj kvs)))
                (JStr (json_dumps (field (JObj kvs) "abstract_inverted_index")))],
      a.2 ++ ((λ r, (last_segment wid, last_segment r)) <$> refs))).
Proof.
  intros Hl Hcs Hc Ht Hid Hrefs.
  rewrite process_line_spec. unfold after_line, line_row, line_citations.
  rewrite Hl, Hcs, (isdisjoint_false c cs _ Hc Ht).
  unfold extract_row. simpl. rewrite Hid, Hrefs. simpl.
  rewrite ref_targets_strings. by rewrite <- list_fmap_compose.
Qed.

Lemma X5_kept_record_witness :
  process_line sample_loads sample_dumps sample_line ([], []) =
    (Ok tt, ([sample_row], [("W1", "W2")])).
Proof.
  exact (X5_kept_record sample_loads sample_dumps sample_line ([], [])
           [("id", JStr "https://openalex.org/W1");
            ("title", JStr "Citation graphs");
            ("concepts", JArr [JObj [("id", JStr "https://openalex.org/C15151743")]]);
            ("referenced_works", JArr [JStr "https://openalex.org/W2"])]
           ["C15151743"] "C15151743" "https://openalex.org/W1"
           ["https://openalex.org/W2"]
           eq_refl eq_refl (list_elem_of_here _ _) (list_elem_of_here _ _)
           eq_refl eq_refl).
Defined.

(** ** The writer's loop and the whole ingestion run *)










Section run_props.
Variable json_loads : string → option json.
Variable json_dumps : json → string.
Variable bucket : string → fetch_result.


End run_props.



(** ** ingest.py *)




(** ** [get_embeddings], in general *)

Lemma map_res_length {A B} (f : A → res B) l l' :
  map_res f l = Ok l' → length l' = length l.
Proof.
  revert l'. induction l as [|x l IH]; intros l'; simpl; [by intros [= <-]|].
  destruct (f x); [|done]. destruct (map_res f l); [|done].
  intros [= <-]. simpl. f_equal. by apply IH.
Qed.

Section embeddings_props.
Context {Vec Stored Score : Type} (X : collaborators Vec Stored Score).

(** The loop that stores the new vectors touches the cache only, and
    only at the identifiers of the missing papers. *)
Lemma store_new_frame new i missing (emb : gmap string Vec) (s s' : sys Stored) r :
  store_new X new i missing emb s = (r, s') →
  db_works s' = db_works s ∧ db_citations s' = db_citations s
  ∧ is_loaded s' = is_loaded s ∧ trace s' = trace s
  ∧ ∀ k, k ∉ missing.*1 → vector_cache s' !! k = vector_cache s !! k.
Proof.
  revert i emb s. induction missing as [|[pid p] missing IH]; intros i emb s; simpl.
  - unfold ret. by intros [= _ <-].
  - destruct (new !! i) as [e|]; [|unfold raise; by intros [= _ <-]].
    unfold mbind, M_bind, bind, cache_put, modify. intros H.
    apply IH in H as (-> & -> & -> & -> & Hc). simpl. split_and!; try done.
    intros k [Hne Hk]%not_elem_of_cons. rewrite Hc by done. simpl.
    by rewrite lookup_insert_ne.
Qed.

Lemma store_new_ok new i missing (emb m : gmap string Vec) (s s' : sys Stored) :
  store_new X new i missing emb s = (Ok m, s') →
  (∀ k, k ∉ missing.*1 → m !! k = emb !! k)
  ∧ (∀ k, k ∈ missing.*1 →
       ∃ v, m !! k = Some v ∧ vector_cache s' !! k = Some (tolist X v))
  ∧ (NoDup missing.*1 → ∀ j kp, missing !! j = Some kp →
       m !! kp.1 = new !! (i + j)).
Proof.
  revert i emb s. induction missing as [|[pid p] missing IH]; intros i emb s; simpl.
  - unfold ret. intros [= <- <-]. split_and!; [done| |done].
    by intros k ?%elem_of_nil.
  - destruct (new !! i) as [e|] eqn:Hi; [|done].
    unfold mbind, M_bind, bind, cache_put, modify. intros H.
    pose proof (store_new_frame _ _ _ _ _ _ _ H) as (_ & _ & _ & _ & Hframe).
    apply IH in H as (Hout & Hin & Hpos). simpl in *. split_and!.
    + intros k [Hne Hk]%not_elem_of_cons. rewrite Hout by done.
      by rewrite lookup_insert_ne.
    + intros k Hk. destruct (decide (k ∈ missing.*1)) as [?|Hnot]; [by apply Hin|].
      apply elem_of_cons in Hk as [->|?]; [|done].
      exists e. rewrite Hout, Hframe by done. by rewrite !lookup_insert_eq.
    + intros [Hpid Hnd]%NoDup_cons [|j] kp; simpl.
      * intros [= <-]. simpl. rewrite Hout by done.
        by rewrite lookup_insert_eq, Nat.add_0_r.
      * intros Hj. rewrite (Hpos Hnd j kp Hj). f_equal. lia.
Qed.

Lemma store_new_total new i missing (emb : gmap string Vec) (s : sys Stored) :
  (i + length missing ≤ length new)%nat →
  ∃ m s', store_new X new i missing emb s = (Ok m, s').
Proof.
  revert i emb s. induction missing as [|[pid p] missing IH]; intros i emb s Hlen;
    simpl in *.
  - by eexists _, _.
  - destruct (lookup_lt_is_Some_2 new i) as [e ->]; [lia|].
    unfold mbind, M_bind, bind, cache_put, modify. apply IH. lia.
Qed.

(** [get_embeddings] once the model is loaded, as one equation. *)
Lemma get_embeddings_loaded (s : sys Stored) papers :
  is_loaded s = true →
  get_embeddings X papers s =
    match map_res paper_id papers with
    | Raise e => (Raise e, s)
    | Ok ids0 =>
        if decide (ids0 = []) then (Ok ∅, s)
        else if forallb sql_plain ids0 then
          if decide (missing_papers s ids0 papers = [])
          then (Ok (np_array X <$> filter (λ kv, kv.1 ∈ ids0) (vector_cache s)), s)
          else
            let s1 := logged s [LogInfo ("Generating embeddings for " +:+
                                  pretty (length (missing_papers s ids0 papers)) +:+
                                  " papers...")] in
            match map_res paper_text (missing_papers s ids0 papers).*2 with
            | Raise e => (Raise e, s1)
            | Ok texts =>
                match forward X texts with
                | Raise e => (Raise e, logged s1 [ForwardPass texts])
                | Ok new =>
                    store_new X new 0 (missing_papers s ids0 papers)
                      (np_array X <$> filter (λ kv, kv.1 ∈ ids0) (vector_cache s))
                      (logged s1 [ForwardPass texts])
                end
            end
        else (Raise SqlError, s)
    end.
Proof.
  intros Hl. unfold get_embeddings.
  rewrite (bind_ok _ _ _ _ _ (load_model_loaded X s Hl)).
  unfold select_cached, emit.
  unfold mbind, M_bind, bind, lift_res, get_state, ret, raise, modify.
  destruct (map_res paper_id papers) as [ids0|e]; [|done].
  case_decide as E1.
  { by rewrite bool_decide_true. }
  rewrite bool_decide_false by done.
  destruct (forallb sql_plain ids0); [|done].
  rewrite missing_filter.
  case_decide as E2.
  { by rewrite bool_decide_false by auto. }
  rewrite bool_decide_true by done. cbv zeta.
  destruct (map_res paper_text _) as [texts|e]; [|done].
  by destruct (forward X texts).
Qed.

Lemma load_model_frame (s s1 : sys Stored) r :
  load_model X s = (r, s1) →
  db_works s1 = db_works s ∧ db_citations s1 = db_citations s
  ∧ vector_cache s1 = vector_cache s
  ∧ (r = Ok tt → is_loaded s1 = true).
Proof.
  unfold load_model, try_except, emit, set_loaded.
  unfold mbind, M_bind, bind, get_state, lift_res, modify, raise, ret.
  destruct s as [ws cs vc ld tr]; simpl.
  destruct ld; simpl; [by intros [= <- <-]|].
  destruct (load_pretrained X) as [[]|e]; simpl; by intros [= <- <-].
Qed.

Lemma get_embeddings_after_load (s s1 : sys Stored) papers :
  load_model X s = (Ok tt, s1) →
  get_embeddings X papers s = get_embeddings X papers s1.
Proof.
  intros H. destruct (load_model_frame s s1 _ H) as (_ & _ & _ & Hl).
  unfold get_embeddings.
  by rewrite (bind_ok _ _ _ _ _ H),
             (bind_ok _ _ _ _ _ (load_model_loaded X s1 (Hl eq_refl))).
Qed.

Lemma missing_keys (s : sys Stored) ids0 papers :
  length ids0 = length papers →
  (missing_papers s ids0 papers).*1 = filter (λ k, vector_cache s !! k = None) ids0.
Proof.
  unfold missing_papers. revert papers.
  induction ids0 as [|k ids0 IH]; intros [|p papers] Hlen; simpl in *; try done.
  rewrite !filter_cons. simpl.
  destruct (decide (vector_cache s !! k = None)); simpl;
    rewrite IH by lia; done.
Qed.

Lemma cached_lookup_out (ids0 : list string) (vc : gmap string Stored) k :
  k ∉ ids0 → (np_array X <$> filter (λ kv, kv.1 ∈ ids0) vc) !! k = None.
Proof.
  intros Hk. rewrite lookup_fmap.
  rewrite (map_lookup_filter_None_2 _ vc); [done|].
  right. intros x _. done.
Qed.

(** What a call gives when nothing fails. *)
Lemma get_embeddings_ok_spec (s : sys Stored) papers ids0 texts new :
  is_loaded s = true ∨ load_pretrained X = Ok tt →
  map_res paper_id papers = Ok ids0 →
  forallb sql_plain ids0 = true →
  map_res paper_text (missing_papers s ids0 papers).*2 = Ok texts →
  texts = [] ∨ (forward X texts = Ok new ∧ (length texts ≤ length new)%nat) →
  ∃ m s',
    get_embeddings X papers s = (Ok m, s')
    ∧ is_loaded s' = true
    ∧ (∀ k, is_Some (m !! k) ↔ k ∈ ids0)
    ∧ (∀ k st, k ∈ ids0 → vector_cache s !! k = Some st →
         m !! k = Some (np_array X st))
    ∧ (∀ k v, m !! k = Some v → vector_cache s !! k = None →
         vector_cache s' !! k = Some (tolist X v))
    ∧ (NoDup (missing_papers s ids0 papers).*1 →
       ∀ j kp, missing_papers s ids0 papers !! j = Some kp →
         m !! kp.1 = new !! j).
Proof.
  intros Hready Hids Hplain Htexts Hfwd.
  destruct (load_model_succeeds X s Hready) as (s1 & Hs1 & Hvc).
  destruct (load_model_frame s s1 _ Hs1) as (_ & _ & _ & Hl1).
  specialize (Hl1 eq_refl).
  rewrite (get_embeddings_after_load s s1 papers Hs1).
  rewrite (get_embeddings_loaded s1 papers Hl1), Hids, Hplain.
  rewrite (missing_papers_cache s s1) by done.
  assert (Hlen : length ids0 = length papers) by by apply map_res_length in Hids.
  pose proof (missing_keys s ids0 papers Hlen) as Hkeys.
  assert (Hmiss : ∀ k, k ∈ (missing_papers s ids0 papers).*1 ↔
                       k ∈ ids0 ∧ vector_cache s !! k = None).
  { intros k. rewrite Hkeys, list_elem_of_filter. tauto. }
  assert (Hemb : ∀ k, (np_array X <$> filter (λ kv, kv.1 ∈ ids0) (vector_cache s1)) !! k
                      = if decide (k ∈ ids0) then np_array X <$> vector_cache s !! k
                        else None).
  { intros k. rewrite Hvc. case_decide; [by apply cached_lookup | by apply cached_lookup_out]. }
  case_decide as E1.
  { subst ids0. eexists _, _. split_and!; [done|done|..].
    - intros k. rewrite lookup_empty. split; [by intros [? ?] | by intros ?%elem_of_nil].
    - by intros k st ?%elem_of_nil.
    - intros k v. by rewrite lookup_empty.
    - intros _ j kp Hj. unfold missing_papers in Hj. simpl in Hj. done. }
  case_decide as E2.
  { eexists _, _. split_and!; [done|done|..].
    - intros k. rewrite Hemb. case_decide as Hk; [|split; [by intros [? ?] | done]].
      split; [done|]. intros _.
      destruct (vector_cache s !! k) eqn:Ek; [by eexists|].
      assert (k ∈ (missing_papers s ids0 papers).*1) as Hin by by apply Hmiss.
      rewrite E2 in Hin. by apply elem_of_nil in Hin.
    - intros k st Hk Hc. rewrite Hemb, decide_True by done. by rewrite Hc.
    - intros k v. rewrite Hemb. case_decide; [|done].
      intros Hm Hc. by rewrite Hc in Hm.
    - rewrite E2. intros _ j kp. by rewrite lookup_nil. }
  cbv zeta. rewrite Htexts.
  assert (Hlt : length texts = length (missing_papers s ids0 papers)).
  { apply map_res_length in Htexts. by rewrite Htexts, length_fmap. }
  destruct Hfwd as [->|[Hf Hnew]].
  { destruct (missing_papers s ids0 papers); done. }
  rewrite Hf.
  destruct (store_new_total new 0 (missing_papers s ids0 papers)
              (np_array X <$> filter (λ kv, kv.1 ∈ ids0) (vector_cache s1))
              (logged (logged s1 [LogInfo ("Generating embeddings for " +:+
                 pretty (length (missing_papers s ids0 papers)) +:+ " papers...")])
                 [ForwardPass texts])) as (m & s' & Hst); [simpl; lia|].
  rewrite Hst.
  destruct (store_new_frame _ _ _ _ _ _ _ Hst) as (_ & _ & Hl' & _ & _).
  destruct (store_new_ok _ _ _ _ _ _ _ Hst) as (Hout & Hin & Hpos).
  exists m, s'. split_and!; [done| | | | |].
  - by rewrite Hl'.
  - intros k. destruct (decide (k ∈ (missing_papers s ids0 papers).*1)) as [Hk|Hk].
    + destruct (Hin k Hk) as (v & -> & _). split; [|by eexists].
      intros _. by apply Hmiss in Hk as [? _].
    + rewrite Hout, Hemb by done. case_decide as Hk'; [|split; [by intros [? ?]|done]].
      split; [done|]. intros _.
      destruct (vector_cache s !! k) eqn:Ek; [by eexists|].
      exfalso. apply Hk, Hmiss. done.
  - intros k st Hk Hc. rewrite Hout.
    + rewrite Hemb, decide_True by done. by rewrite Hc.
    + rewrite Hmiss. intros [_ ?]. congruence.
  - intros k v Hm Hc.
    destruct (decide (k ∈ (missing_papers s ids0 papers).*1)) as [Hk|Hk].
    + destruct (Hin k Hk) as (v' & Hv' & ?). congruence.
    + rewrite Hout, Hemb in Hm by done. case_decide; [|done].
      by rewrite Hc in Hm.
  - intros Hnd j kp Hj. by rewrite (Hpos Hnd j kp Hj).
Qed.


End embeddings_props.



(** X12. The vectors of one forward pass go to the papers by position:
    when the missing papers of a call have distinct identifiers, the
    paper at position [j] among them gets the vector at position [j]
    of the encoder's output. *)
Theorem X12_batch_positions {Vec Stored Score : Type}
    (X : collaborators Vec Stored Score) (s : sys Stored)
    (papers : list paper) (ids0 texts : list string) (new : list Vec) :
  is_loaded s = true ∨ load_pretrained X = Ok tt →
  map_res paper_id papers = Ok ids0 →
  forallb sql_plain ids0 = true →
  map_res paper_text (missing_papers s ids0 papers).*2 = Ok texts →
  forward X texts = Ok new →
  (length texts ≤ length new)%nat →
  NoDup (missing_papers s ids0 papers).*1 →
  ∃ m s',
    get_embeddings X papers s = (Ok m, s')
    ∧ ∀ j kp, missing_papers s ids0 papers !! j = Some kp →
        m !! kp.1 = new !! j.
Proof.
  intros H1 H2 H3 H4 H5 H6 Hnd.
  destruct (get_embeddings_ok_spec X s papers ids0 texts new H1 H2 H3 H4
              (or_intror (conj H5 H6)))
    as (m & s' & ? & _ & _ & _ & _ & Hpos).
  exists m, s'. split; [done|]. by apply Hpos.
Qed.

Lemma X12_batch_positions_witness :
  ∃ m s',
    get_embeddings (sample_engine (Ok tt) true) [paper_A; paper_B] sample_cache_A
      = (Ok m, s')
    ∧ m !! "B" = Some 1%Z.
Proof.
  destruct (X12_batch_positions (sample_engine (Ok tt) true) sample_cache_A
              [paper_A; paper_B] ["A"; "B"] ["On B "] [1%Z]
              (or_introl eq_refl) eq_refl eq_refl eq_refl eq_refl (le_n 1)
              (NoDup_singleton "B"))
    as (m & s' & Hrun & Hpos).
  exists m, s'. split; [exact Hrun|].
  exact (Hpos 0 ("B", paper_B) eq_refl).
Defined.


Lemma load_model_fails_eq {Vec Stored Score : Type}
    (X : collaborators Vec Stored Score) (s : sys Stored) e :
  is_loaded s = false → load_pretrained X = Raise e →
  load_model X s =
    (Raise e,
     logged s [LogInfo ("Loading SPECTER2 model on " +:+ device X +:+ "...");
               LoadPretrained; LogError "Failed to load SPECTER2 model"]).
Proof.
  intros Hl He. unfold load_model, try_except, emit, set_loaded, logged.
  unfold mbind, M_bind, bind, get_state, lift_res, modify, raise, ret.
  rewrite Hl, He. simpl. rewrite <- !app_assoc. simpl. by rewrite Hl.
Qed.

(** X14. The model is loaded at most once: after a call of
    [load_model] that succeeds, the engine is loaded and a further call
    does nothing; a call that fails leaves the engine not loaded, so
    that the next call tries again. *)
Theorem X14_load_model_once {Vec Stored Score : Type}
    (X : collaborators Vec Stored Score) (s : sys Stored) :
  (∃ s', load_model X s = (Ok tt, s')
         ∧ is_loaded s' = true
         ∧ load_model X s' = (Ok tt, s')
         ∧ (is_loaded s = true → s' = s))
  ∨ (∃ e s', load_model X s = (Raise e, s')
             ∧ is_loaded s' = false
             ∧ load_pretrained X = Raise e
             ∧ ∃ s'', load_model X s' = (Raise e, s'')
                      ∧ trace s'' ≠ trace s').
Proof.
  destruct (load_model X s) as [[[]|e] s'] eqn:H.
  - left. exists s'. destruct (load_model_ok_inv X s s' H) as (Hl & _ & _ & Hsame).
    split_and!; [done|done| |done]. by apply load_model_loaded.
  - right. exists e, s'.
    destruct (load_model_raise_inv X s s' e H) as (Hl & He & _).
    rewrite (load_model_fails_eq X s e Hl He) in H. injection H as <-.
    split_and!; [done|done|done|].
    eexists. split; [by apply load_model_fails_eq|]. simpl.
    intros Heq. apply (f_equal length) in Heq. rewrite !length_app in Heq.
    simpl in Heq. lia.
Qed.

(** ** The similarity query, further *)





(** ** Graph expansion, further *)







Section expansion_props.
Context {Vec Stored Score : Type} (X : collaborators Vec Stored Score).





End expansion_props.








(** ** get_concept_ids.py *)

Lemma has_char_app c a b :
  has_char c (a +:+ b) = has_char c a || has_char c b.
Proof.
  induction a as [|x a IH]; simpl; [done|]. rewrite IH. by rewrite orb_assoc.
Qed.

Lemma prefix_has_char c p s :
  String.prefix p s = true → has_char c p = true → has_char c s = true.
Proof.
  revert s. induction p as [|a p IH]; intros [|b s]; simpl; try done.
  destruct (Ascii.ascii_dec a b) as [->|]; [|done].
  intros Hp. destruct (Ascii.eqb b c); [done|]. simpl. by apply IH.
Qed.

Lemma prefix_app p c : String.prefix p (p +:+ c) = true.
Proof.
  induction p as [|a p IH]; simpl; [by destruct c|].
  by destruct (Ascii.ascii_dec a a).
Qed.

Lemma replace_go_skip old new p c :
  replace_go old new (String.length p) (p +:+ c) = replace_go old new 0 c.
Proof. induction p as [|a p IH]; simpl; [done|]. apply IH. Qed.

(** A string without a slash has no occurrence of a pattern with one. *)
Lemma replace_go_plain old new c :
  has_char slash old = true → has_char slash c = false →
  replace_go old new 0 c = c.
Proof.
  intros Hold. induction c as [|a c IH]; [done|].
  intros Hc. cbn [replace_go].
  destruct (String.prefix old (String a c)) eqn:Hp.
  { apply (prefix_has_char slash) in Hp; [congruence | done]. }
  simpl in Hc. apply orb_false_iff in Hc as [_ Hc]. by rewrite IH.
Qed.

Lemma replace_go_head a t new c :
  replace_go (String a t) new 0 (String a t +:+ c)
  = new +:+ replace_go (String a t) new 0 c.
Proof.
  change (String a t +:+ c) with (String a (t +:+ c)).
  cbn [replace_go].
  change (String a (t +:+ c)) with (String a t +:+ c).
  rewrite prefix_app. cbn [String.length]. rewrite Nat.sub_1_r. cbn [pred].
  by rewrite replace_go_skip.
Qed.

Lemma py_replace_openalex c :
  has_char slash c = false →
  py_replace openalex_prefix EmptyString (openalex_prefix +:+ c) = c.
Proof.
  intros Hc. unfold py_replace, openalex_prefix.
  rewrite replace_go_head. simpl. by apply replace_go_plain.
Qed.

Lemma split_on_app_sep sep a b :
  split_on sep (a +:+ String sep b) = split_on sep a ++ split_on sep b.
Proof.
  induction a as [|c a IH]; simpl.
  - by rewrite Ascii.eqb_refl.
  - destruct (Ascii.eqb c sep); [by rewrite IH|].
    rewrite IH. destruct (split_on sep a) as [|h t] eqn:E; [|done].
    by apply split_on_nonempty in E.
Qed.

Lemma last_app_nonempty {A} (l1 l2 : list A) d :
  l2 ≠ [] → List.last (l1 ++ l2) d = List.last l2 d.
Proof.
  intros H. induction l1 as [|x l1 IH]; [done|].
  simpl. destruct (l1 ++ l2) eqn:E; [|done].
  apply app_eq_nil in E as [_ ?]. done.
Qed.

Lemma last_segment_openalex c :
  has_char slash c = false → last_segment (openalex_prefix +:+ c) = c.
Proof.
  intros Hc. unfold last_segment.
  change (openalex_prefix +:+ c)
    with ("https://openalex.org" +:+ String slash c).
  rewrite split_on_app_sep, last_app_nonempty by apply split_on_nonempty.
  by rewrite split_on_plain_string.
Qed.

Section concept_script_props.
Variable http_get_json : string → res json.
Variable py_format : json → string.

(** [get_concept_id] catches everything. It prints one line, or two
    when the identifier of the best match is not a string: the line
    that announces the match, then the line of the error. *)
Lemma get_concept_id_total term out :
  ∃ v lines,
    get_concept_id http_get_json py_format term out = (Ok v, out ++ lines)
    ∧ (1 ≤ length lines ≤ 2)%nat
    ∧ (∀ c, v = Some c → length lines = 1%nat).
Proof.
  unfold get_concept_id, try_except.
  unfold mbind, M_bind, bind, lift_res, modify, ret.
  destruct (http_get_json _) as [r|e]; [|eexists _, [_]; simpl; split_and!; [done|lia|lia|done]].
  destruct (py_get r "results" (JArr [])) as [results|e];
    [|eexists _, [_]; simpl; split_and!; [done|lia|lia|done]].
  destruct (py_truthy results); [|eexists _, [_]; simpl; split_and!; [done|lia|lia|done]].
  destruct (py_getitem0 results) as [best|e];
    [|eexists _, [_]; simpl; split_and!; [done|lia|lia|done]].
  destruct (py_getitem best "display_name") as [name|e];
    [|eexists _, [_]; simpl; split_and!; [done|lia|lia|done]].
  destruct (py_getitem best "id") as [cid|e];
    [|eexists _, [_]; simpl; split_and!; [done|lia|lia|done]].
  destruct cid; simpl;
    try (eexists _, [_; _]; rewrite <- app_assoc; simpl; split_and!; [done|lia|lia|done]).
  eexists _, [_]. simpl. split_and!; [done|lia|lia|done].
Qed.

Lemma collect_concept_ids_spec terms found out :
  ∃ found' out',
    collect_concept_ids http_get_json py_format terms found out = (Ok found', out')
    ∧ (length out + length terms ≤ length out' ≤ length out + 2 * length terms)%nat
    ∧ found `prefix_of` found'
    ∧ (length found' ≤ length found + length terms)%nat
    ∧ (Forall (λ c, c ≠ EmptyString) found → Forall (λ c, c ≠ EmptyString) found').
Proof.
  revert found out. induction terms as [|term terms IH]; intros found out.
  - exists found, out. simpl. unfold ret. split_and!; [done|lia|lia|done|lia|done].
  - destruct (get_concept_id_total term out) as (v & lines & Hv & Hlines & _).
    cbn [collect_concept_ids]. rewrite (bind_ok _ _ _ _ _ Hv).
    assert (Hlen : length (out ++ lines) = (length out + length lines)%nat)
      by apply length_app.
    destruct v as [c|]; [case_bool_decide as Hc; simpl|].
    + destruct (IH found (out ++ lines)) as (f' & o' & -> & Ho & ? & ? & ?).
      exists f', o'. simpl. split_and!; [done|lia|lia|done|lia|done].
    + destruct (IH (found ++ [c]) (out ++ lines)) as (f' & o' & -> & Ho & Hp & Hl & Hf).
      exists f', o'. rewrite length_app in Hl. simpl in *.
      split_and!; [done|lia|lia| |lia|].
      * trans (found ++ [c]); [by apply prefix_app_r | done].
      * intros Hall. apply Hf, Forall_app. split; [done|]. by constructor.
    + destruct (IH found (out ++ lines)) as (f' & o' & -> & Ho & ? & ? & ?).
      exists f', o'. simpl. split_and!; [done|lia|lia|done|lia|done].
Qed.

End concept_script_props.

(** X20. For a concept that the API gives first, with a display name
    and the identifier https://openalex.org/ followed by a name
    without a slash, [get_concept_id] prints one line and returns that
    name; it is the segment that the filter of [process_single_file]
    computes from the same identifier. *)
Theorem X20_concept_id_matches_filter (http_get_json : string → res json)
    (py_format : json → string) (term : string) (out : list string)
    (r name : json) (best : list (string * json)) (rest : list json) (c : string) :
  http_get_json ("https://api.openalex.org/concepts?search=" +:+ term) = Ok r →
  py_get r "results" (JArr []) = Ok (JArr (JObj best :: rest)) →
  assoc_get "display_name" best = Some name →
  assoc_get "id" best = Some (JStr (openalex_prefix +:+ c)) →
  has_char slash c = false →
  get_concept_id http_get_json py_format term out =
    (Ok (Some c),
     out ++ ["Found: " +:+ py_format name +:+ " -> " +:+
             py_format (JStr (openalex_prefix +:+ c))])
  ∧ py_last_segment (JStr (openalex_prefix +:+ c)) = Ok c.
Proof.
  intros Hr Hres Hname Hid Hc. split.
  - unfold get_concept_id, try_except.
    unfold mbind, M_bind, bind, lift_res, modify, ret.
    rewrite Hr, Hres. simpl. rewrite Hname, Hid. simpl.
    by rewrite py_replace_openalex.
  - simpl. f_equal. by apply last_segment_openalex.
Qed.

Lemma X20_concept_id_matches_filter_witness :
  (get_concept_id
     (λ _, Ok (JObj [("results",
                      JArr [JObj [("id", JStr "https://openalex.org/C15151743");
                                  ("display_name", JStr "Metagenomics")]])]))
     (λ _, "") "Metagenomics" []).1 = Ok (Some "C15151743")
  ∧ "C15151743" ∈ TARGET_CONCEPT_IDS.
Proof.
  destruct (X20_concept_id_matches_filter
              (λ _, Ok (JObj [("results",
                      JArr [JObj [("id", JStr "https://openalex.org/C15151743");
                                  ("display_name", JStr "Metagenomics")]])]))
              (λ _, "") "Metagenomics" [] _ (JStr "Metagenomics")
              [("id", JStr "https://openalex.org/C15151743");
               ("display_name", JStr "Metagenomics")] [] "C15151743"
              eq_refl eq_refl eq_refl eq_refl eq_refl) as [Hrun _].
  split; [by rewrite Hrun | apply list_elem_of_here].
Defined.

(** X21. The script never fails, whatever the API answers: every term
    prints one line, or two when a match is announced and its
    identifier then turns out not to be a string; every term gives at
    most one identifier, and no empty identifier enters [found_ids]. *)
Theorem X21_concept_script (http_get_json : string → res json)
    (py_format : json → string) (terms : list string) (out : list string) :
  ∃ found out',
    collect_concept_ids http_get_json py_format terms [] out = (Ok found, out')
    ∧ (length out + length terms ≤ length out' ≤ length out + 2 * length terms)%nat
    ∧ (length found ≤ length terms)%nat
    ∧ Forall (λ c, c ≠ EmptyString) found.
Proof.
  destruct (collect_concept_ids_spec http_get_json py_format terms [] out)
    as (found & out' & H & Ho & _ & Hl & Hf).
  exists found, out'. split_and!; [done|lia|lia|simpl in Hl; lia|].
  apply Hf. constructor.
Qed.

(** ** main.py: [/search] *)

Section search_props.
Variable C : search_collaborators.



End search_props.





Section search_carry.
Variable C : search_collaborators.

Lemma append_papers_ok rows ps (st : search_state) :
  Forall2 (λ r p, Paper C r = Ok p) rows ps →
  append_papers C rows st = (Ok tt, (st.1 ++ ps, st.2)).
Proof.
  intros H. revert st. induction H as [|r p rows ps Hr _ IH]; intros [ps0 lg].
  - simpl. by rewrite app_nil_r.
  - unfold append_papers in *. cbn [for_each].
    assert (Hb : (p0 ← lift_res (Paper C r);
                  modify (λ st : search_state, (st.1 ++ [p0], st.2))) (ps0, lg)
                 = (Ok tt, (ps0 ++ [p], lg))).
    { unfold mbind, M_bind, bind, lift_res, modify. by rewrite Hr. }
    rewrite (bind_ok _ _ _ _ _ Hb), IH. simpl. by rewrite <- app_assoc.
Qed.

Lemma append_papers_stops good bad rest ps e (st : search_state) :
  Forall2 (λ r p, Paper C r = Ok p) good ps →
  Paper C bad = Raise e →
  append_papers C (good ++ bad :: rest) st = (Raise e, (st.1 ++ ps, st.2)).
Proof.
  intros H Hbad. revert st. induction H as [|r p rows ps Hr _ IH]; intros [ps0 lg].
  - simpl. rewrite app_nil_r. unfold append_papers. cbn [for_each].
    apply bind_raise. unfold mbind, M_bind, bind, lift_res, modify. by rewrite Hbad.
  - unfold append_papers in *. cbn [app for_each].
    assert (Hb : (p0 ← lift_res (Paper C r);
                  modify (λ st : search_state, (st.1 ++ [p0], st.2))) (ps0, lg)
                 = (Ok tt, (ps0 ++ [p], lg))).
    { unfold mbind, M_bind, bind, lift_res, modify. by rewrite Hr. }
    rewrite (bind_ok _ _ _ _ _ Hb), IH. simpl. by rewrite <- app_assoc.
Qed.

End search_carry.

(** X24. The list [papers] is shared by the two attempts: when a row
    of the full-text results gives no [Paper], the papers of the rows
    before it stay in the list, and the answer is those followed by
    the papers of the fallback query. *)
Theorem X24_search_carries_over (C : search_collaborators)
    (works_table : list work_row) (q : string) (log : list event)
    (results good rest : list work_row) (bad : work_row) (e : exn)
    (ps ps' : list paper) :
  contains "10." q && contains "/" q = false →
  match_bm25 C works_table q = Ok results →
  take 20 results = good ++ bad :: rest →
  Forall2 (λ r p, Paper C r = Ok p) good ps →
  Paper C bad = Raise e →
  Forall2 (λ r p, Paper C r = Ok p)
    (fallback_query C works_table ("%" +:+ q +:+ "%")) ps' →
  search_papers C works_table q log =
    (Ok (ps ++ ps'), (ps ++ ps', log ++ [LogError "Search failed"])).
Proof.
  intros Hdoi Hm Htake Hgood Hbad Hfall.
  unfold search_papers, try_except, search_attempt, search_fallback.
  rewrite Hdoi.
  unfold mbind at 1, M_bind at 1, bind at 1, ret at 1.
  unfold mbind at 1, M_bind at 1, bind at 1, lift_res at 1. rewrite Hm.
  rewrite Htake.
  rewrite (bind_raise _ _ _ _ _
             (append_papers_stops C good bad rest ps e ([], log) Hgood Hbad)).
  unfold mbind at 1, M_bind at 1, bind at 1, modify at 1.
  rewrite (bind_ok _ _ _ _ _
             (append_papers_ok C _ ps' _ Hfall)).
  unfold mbind, M_bind, bind, get_state, ret. done.
Qed.

Lemma X24_search_carries_over_witness :
  (search_papers sample_search_partial
     [row_D "D1" "First"; row_D "D2" "Second"] "graph" []).1
  = Ok [row_node (row_D "D1" "First"); row_node (row_D "D1" "First")].
Proof.
  assert (Hgood : Forall2 (λ r p, Paper sample_search_partial r = Ok p)
                    [row_D "D1" "First"] [row_node (row_D "D1" "First")])
    by (constructor; [reflexivity | constructor]).
  assert (Hfall : Forall2 (λ r p, Paper sample_search_partial r = Ok p)
                    (fallback_query sample_search_partial
                       [row_D "D1" "First"; row_D "D2" "Second"]
                       ("%" +:+ "graph" +:+ "%"))
                    [row_node (row_D "D1" "First")])
    by (constructor; [reflexivity | constructor]).
  rewrite (X24_search_carries_over sample_search_partial
             [row_D "D1" "First"; row_D "D2" "Second"] "graph" []
             [row_D "D1" "First"; row_D "D2" "Second"]
             [row_D "D1" "First"] [] (row_D "D2" "Second") TypeError
             [row_node (row_D "D1" "First")] [row_node (row_D "D1" "First")]
             eq_refl eq_refl eq_refl Hgood eq_refl Hfall).
  reflexivity.
Defined.
